(** * Chub-Stage: the message-state lifecycle of [src/src/Stage.tsx]

  The class [Stage] keeps one mutable bag of values, [myInternalState],
  seeded by its constructor, merged into by [setState] and read by the
  two turn hooks [beforePrompt] and [afterResponse].  This file embeds
  those five methods over a small store of JavaScript objects and proves
  the lifecycle and merge properties of the specification; it then embeds
  [render], the panel that displays the working state, and proves what the
  panel shows and how its categories open and close.

  Layout: a model of the JavaScript values the class touches (module
  [JS]), the records exchanged with the host, the element trees of the
  panel (module [React]), the class itself (module [Stage]), the host's
  call sequence, and then the theorems. *)

From Stdlib Require Import ZArith.
From stdpp Require Import gmap strings list fin_maps pretty.

Open Scope string_scope.

(* ===================================================================== *)
(** ** JavaScript values, objects and the store                          *)
(* ===================================================================== *)

Module JS.

(** Objects live in a store and are handled through references, so that
    two names for one object see each other's writes. *)
Definition loc := positive.

(** Every TypeScript type of the file is [any]; a value is a primitive
    or a reference.  Numbers carry an integer: the only numbers the class
    produces are array lengths, and it never computes on the others. *)
Inductive value : Type :=
| VUndefined
| VNull
| VBool (b : bool)
| VNum (n : Z)
| VStr (s : string)
| VRef (l : loc).
Arguments VNum n%_Z.
Arguments VRef l%_positive.

#[global] Instance value_eq_dec : EqDecision value.
Proof. solve_decision. Defined.

#[global] Instance value_inhabited : Inhabited value := populate VUndefined.

(** An object is its own enumerable string-keyed properties (what
    [Object.keys] lists and what a spread copies).  Arrays are objects
    whose keys are indices. *)
Abbreviation obj := (gmap string value).
Abbreviation heap := (gmap loc obj).

Inductive exn : Type := TypeError.

(** A computation either returns on a final store or throws on one.
    For the [async] methods of the class, [Return] is a promise that
    resolves and [Throw] one that rejects. *)
Inductive outcome (A : Type) : Type :=
| Return (a : A) (h : heap)
| Throw (e : exn) (h : heap).
Arguments Return {A} a h.
Arguments Throw {A} e h.

Definition M (A : Type) : Type := heap → outcome A.

#[global] Instance M_ret : MRet M := λ A a h, Return a h.

#[global] Instance M_bind : MBind M := λ A B f m h,
  match m h with
  | Return a h' => f a h'
  | Throw e h' => Throw e h'
  end.

Definition final_heap {A : Type} (r : outcome A) : heap :=
  match r with
  | Return _ h => h
  | Throw _ h => h
  end.

Definition returns {A : Type} (r : outcome A) : bool :=
  match r with
  | Return _ _ => true
  | Throw _ _ => false
  end.

(** [v != null]: the loose comparison is false for [null] and for
    [undefined], true for everything else. *)
Definition neq_null (v : value) : bool :=
  match v with
  | VUndefined | VNull => false
  | _ => true
  end.

(** The properties of the object at [l]. *)
Definition obj_at (h : heap) (l : loc) : obj := default ∅ (h !! l).

(** A string primitive exposes one index property per character. *)
Definition string_props (s : string) : obj :=
  list_to_map
    (imap (λ (i : nat) (c : Ascii.ascii), (pretty i, VStr (String c EmptyString)))
          (String.list_ascii_of_string s)).

(** Own enumerable properties of a value: those of the object behind a
    reference, the index properties of a string, none for the other
    primitives (and none for [null] and [undefined], which a spread
    skips). *)
Definition own_props (h : heap) (v : value) : obj :=
  match v with
  | VRef l => obj_at h l
  | VStr s => string_props s
  | _ => ∅
  end.

(** [{...a, ...b}] copies [a]'s properties, then [b]'s over them. *)
Definition merge (a b : obj) : obj := b ∪ a.

(** An object literal: a new object at an unused location. *)
Definition alloc (o : obj) : M loc := λ h,
  let l := fresh (dom h) in Return l (<[l := o]> h).

(** [v[k]] for the keys this class reads ([someKey], [content],
    [anonymizedId], [isBot]), none of which a built-in prototype
    defines: the own property, [undefined] when there is none, a
    [TypeError] on [null] and [undefined]. *)
Definition get_prop (v : value) (k : string) : M value := λ h,
  if neq_null v then Return (default VUndefined (own_props h v !! k)) h
  else Throw TypeError h.

(** [v[k] = x] in strict code (class bodies are strict): writes the
    property of an object in place; on a primitive, and on [null] and
    [undefined], it is a [TypeError]. *)
Definition set_prop (v : value) (k : string) (x : value) : M unit := λ h,
  match v with
  | VRef l => Return tt (<[l := <[k := x]> (obj_at h l)]> h)
  | _ => Throw TypeError h
  end.

(** [Object.keys(v)]: a [TypeError] on [null] and [undefined], else the
    own enumerable keys.  Only the [length] of the result is used, so
    the order of the list is the map's, not JavaScript's. *)
Definition Object_keys (v : value) : M (list string) := λ h,
  if neq_null v then Return (map_to_list (own_props h v)).*1 h
  else Throw TypeError h.

(** [{...a, ...b}] as an expression: the merged copy, newly allocated. *)
Definition spread2 (a b : value) : M value := λ h,
  match alloc (merge (own_props h a) (own_props h b)) h with
  | Return l h' => Return (VRef l) h'
  | Throw e h' => Throw e h'
  end.

End JS.

Import JS.

(* ===================================================================== *)
(** ** Records exchanged with the host                                   *)
(* ===================================================================== *)

(** The construction payload, as the constructor destructures it.  A field
  the host left out reads [VUndefined]. *)
Module InitialData.
Record t : Type := Build {
  characters : value;
  users : value;
  config : value;
  messageState : value;
  environment : value;
  initState : value;
  chatState : value
}.
End InitialData.

(** The object literal [load] returns. *)
Module LoadResponse.
Record t : Type := Build {
  success : value;
  error : value;
  initState : value;
  chatState : value
}.
End LoadResponse.

(** The object literal the two turn hooks return. *)
Module StageResponse.
Record t : Type := Build {
  stageDirections : value;
  messageState : value;
  modifiedMessage : value;
  systemMessage : value;
  error : value;
  chatState : value
}.
End StageResponse.

(* ===================================================================== *)
(** ** Elements                                                          *)
(* ===================================================================== *)

(** What the JSX of [render] evaluates to: a tree of elements whose leaves
    are the text and [{expression}] children, kept as values.  A click
    handler of the panel is a closure that calls [setActiveCategory] once;
    it is recorded as the argument it passes ([None] for [null]).  An
    element without a [style] attribute has the empty style. *)
Module React.

#[warnings="-register-all"]
Inductive node : Type :=
| Child (v : value)
| Div (style : list (string * string)) (children : list node)
| Button (onClick : option string) (children : list node)
| Fragment (children : list node).

(** Child expressions are evaluated left to right. *)
Fixpoint mapM {A B : Type} (f : A → M B) (l : list A) : M (list B) :=
  match l with
  | [] => mret []
  | x :: l' => y ← f x; ys ← mapM f l'; mret (y :: ys)
  end.

(** The leaves of a tree in document order. *)
Fixpoint leaves (n : node) : list value :=
  match n with
  | Child v => [v]
  | Div _ cs | Button _ cs | Fragment cs => concat (List.map leaves cs)
  end.

(** The click handlers of a tree in document order. *)
Fixpoint buttons (n : node) : list (option string) :=
  match n with
  | Child _ => []
  | Button onClick cs => onClick :: concat (List.map buttons cs)
  | Div _ cs | Fragment cs => concat (List.map buttons cs)
  end.

End React.

Import React.

(* ===================================================================== *)
(** ** The class [Stage]                                                 *)
(* ===================================================================== *)

Module Stage.

(** The instance: its one field. *)
Record t : Type := Build { myInternalState : value }.

(** The default seed, [{'someKey': 'someValue'}]. *)
Definition seed : obj := {[ "someKey" := VStr "someValue" ]}.

(** [super(data)]: the base class [StageBase] belongs to the package
    [@chub-ai/stages-ts]; it declares the interface, holds no field and
    its constructor does nothing. *)
Definition StageBase_constructor (data : InitialData.t) : M unit := mret tt.

(** [constructor(data)], lines 127-151. *)
Definition constructor (data : InitialData.t) : M t :=
  StageBase_constructor data ;;
  let messageState := InitialData.messageState data in
  let users := InitialData.users data in
  let characters := InitialData.characters data in
  s ← (if neq_null messageState then mret messageState
       else l ← alloc seed; mret (VRef l));
  ku ← Object_keys users;
  set_prop s "numUsers" (VNum (Z.of_nat (length ku))) ;;
  kc ← Object_keys characters;
  set_prop s "numChars" (VNum (Z.of_nat (length kc))) ;;
  mret {| myInternalState := s |}.

(** [load()], lines 157-193. *)
Definition load (this : t) : M LoadResponse.t :=
  mret {| LoadResponse.success := VBool true;
          LoadResponse.error := VNull;
          LoadResponse.initState := VNull;
          LoadResponse.chatState := VNull |}.

(** [setState(state)], lines 197-215; returns the instance as the
    assignment leaves it. *)
Definition setState (this : t) (state : value) : M t :=
  if neq_null state then
    s ← spread2 (myInternalState this) state;
    mret {| myInternalState := s |}
  else mret this.

(** [beforePrompt(userMessage)], lines 219-287. *)
Definition beforePrompt (this : t) (userMessage : value) : M StageResponse.t :=
  content ← get_prop userMessage "content";
  anonymizedId ← get_prop userMessage "anonymizedId";
  isBot ← get_prop userMessage "isBot";
  v ← get_prop (myInternalState this) "someKey";
  ms ← alloc {[ "someKey" := v ]};
  mret {| StageResponse.stageDirections := VNull;
          StageResponse.messageState := VRef ms;
          StageResponse.modifiedMessage := VNull;
          StageResponse.systemMessage := VNull;
          StageResponse.error := VNull;
          StageResponse.chatState := VNull |}.

(** [afterResponse(botMessage)], lines 291-349. *)
Definition afterResponse (this : t) (botMessage : value) : M StageResponse.t :=
  content ← get_prop botMessage "content";
  anonymizedId ← get_prop botMessage "anonymizedId";
  isBot ← get_prop botMessage "isBot";
  v ← get_prop (myInternalState this) "someKey";
  ms ← alloc {[ "someKey" := v ]};
  mret {| StageResponse.stageDirections := VNull;
          StageResponse.messageState := VRef ms;
          StageResponse.modifiedMessage := VNull;
          StageResponse.error := VNull;
          StageResponse.systemMessage := VNull;
          StageResponse.chatState := VNull |}.

(** The lines of a category in [render]: a [renderDetail(label,
    myInternalState[key])] call or a fixed [<div>text</div>]. *)
Inductive item : Type :=
| Detail (label key : string)
| Heading (text : string).

(** The nine [renderCategory] calls of [render], lines 393-538, with their
    lines in source order. *)
Definition categories : list (string * list item) :=
  [ ("Body Details",
     [ Detail "Appearance" "appearance";
       Detail "Weight" "weight";
       Detail "Muscles" "muscles";
       Detail "BMI" "bmi";
       Detail "Bust" "bust";
       Detail "Waist" "waist";
       Detail "Hips" "hips";
       Detail "Chest" "chest";
       Detail "Shoulder Width" "shoulderWidth";
       Detail "Neck Size" "neckSize";
       Detail "Arm/Sleeve Length" "armSleeveLength";
       Detail "Upper Arm Circumference" "upperArmCircumference";
       Detail "Wrist Circumference" "wristCircumference";
       Detail "Ankle Circumference" "ankleCircumference";
       Detail "High Ankle Circumference" "highAnkleCircumference";
       Detail "Nape to Waist" "napeToWaist";
       Detail "Front Shoulder to Waist" "frontShoulderToWaist";
       Detail "Armscye Depth" "armscyeDepth";
       Detail "Waist to Knee" "waistToKnee";
       Detail "Waist to Hip" "waistToHip";
       Detail "Waist to Floor" "waistToFloor";
       Detail "Body Rise" "bodyRise";
       Detail "Inseam" "inseam";
       Detail "Skin Tone" "skinTone";
       Detail "Skin Type" "skinType";
       Detail "Body Freckles" "bodyFreckles";
       Detail "Vagina Description" "vaginaDescription";
       Detail "Vagina Tightness" "vaginaTightness";
       Detail "Penis Description" "penisDescription";
       Detail "Penis Size" "penisSize";
       Detail "Balls" "balls";
       Detail "Ball Size" "ballSize";
       Detail "Height" "height";
       Detail "Shoulder Width" "shoulderWidth";
       Detail "Breast Size" "breastSize";
       Detail "Nipple Size" "nippleSize";
       Detail "Ass Size" "assSize";
       Detail "Hip Size" "hipSize";
       Detail "Thigh Size" "thighSize";
       Detail "Finger Nails" "fingerNails";
       Detail "Toe Nails" "toeNails" ]);
    ("Facial Details",
     [ Detail "Hair Length" "hairLength";
       Detail "Hair Color" "hairColor";
       Detail "Hair Style" "hairStyle";
       Detail "Hair Type" "hairType";
       Detail "Fringe" "fringe";
       Detail "Current Hair Accessory" "currentHairAccessory";
       Detail "Hair Ribbons" "hairRibbons";
       Detail "Hair Beads" "hairBeads";
       Detail "Hair Bows" "hairBows";
       Detail "Hair Clips" "hairClips";
       Detail "Hair Accessory Color" "hairAccessoryColor";
       Detail "Eye Color" "eyeColor";
       Detail "Face Freckles" "faceFreckles";
       Detail "Lip Size" "lipSize";
       Detail "Ears" "ears" ]);
    ("Makeup and Grooming",
     [ Heading "Lip Makeup:";
       Detail "Lip Makeup Color" "lipMakeupColor";
       Detail "Lip Makeup Style" "lipMakeupStyle";
       Detail "Lip Glitter" "lipGlitter";
       Detail "Lip Liner" "lipLiner";
       Heading "Eye Makeup:";
       Detail "Eyeshadow Color" "eyeshadowColor";
       Detail "Eyeshadow Style" "eyeshadowStyle";
       Detail "Eyeliner Color" "eyelinerColor";
       Detail "Eyeliner Style" "eyelinerStyle";
       Detail "Eye Glitter" "eyeGlitter";
       Heading "Lash Makeup:";
       Detail "Fake Lash Style" "fakeLashStyle";
       Detail "Mascara Style" "mascaraStyle";
       Heading "Cheek Makeup:";
       Detail "Blush Color" "blushColor";
       Detail "Blush Style" "blushStyle";
       Detail "Cheek Glitter" "cheekGlitter";
       Detail "Cheek Highlighter" "cheekHighlighter";
       Heading "Full Face Makeup:";
       Detail "Face Paint Style" "facePaintStyle";
       Heading "Full Body Makeup:";
       Detail "Body Paint Style" "bodyPaintStyle";
       Detail "Body Glitter" "bodyGlitter" ]);
    ("Hygiene",
     [ Detail "Body Scent" "bodyScent";
       Detail "Breath Scent" "breathScent";
       Detail "Body Sweat" "bodySweat";
       Detail "Body Cum" "bodyCum";
       Detail "Hair Cum" "hairCum";
       Detail "Clothing Cum" "clothingCum";
       Detail "Underwear Cum" "underwearCum" ]);
    ("Misc",
     [ Detail "Fingernails" "fingernails";
       Detail "Toenails" "toenails" ]);
    ("Cum Production Details",
     [ Detail "Producing Cum" "producingCum";
       Detail "Cum Level" "cumLevel";
       Detail "Cum Maximum Cap" "cumMaximumCap";
       Detail "Cum Gain Average" "cumGainAverage";
       Detail "Cum Consistency" "cumConsistency" ]);
    ("Milk Production Details",
     [ Detail "Producing Milk" "producingMilk";
       Detail "Milk Level" "milkLevel";
       Detail "Milk Maximum Cap" "milkMaximumCap";
       Detail "Milk Gain Average" "milkGainAverage";
       Detail "Milk Consistency" "milkConsistency" ]);
    ("Squirt Production Details (Vagina Discharge During Orgasm)",
     [ Detail "Producing Squirt" "producingSquirt";
       Detail "Squirt Level" "squirtLevel";
       Detail "Squirt Maximum Cap" "squirtMaximumCap";
       Detail "Squirt Gain Average" "squirtGainAverage";
       Detail "Squirt Consistency" "squirtConsistency" ]);
    ("Clothing Details",
     [ Detail "Clothing Worn" "clothingWorn";
       Detail "Underwear Worn" "underwearWorn";
       Detail "Neckwear" "neckwear";
       Detail "Neckwear Locked" "neckwearLocked";
       Detail "Butt Plug Worn" "buttPlugWorn";
       Detail "Currently Worn Main Chastity Device" "currentlyWornMainChastityDevice" ]) ].

(** [renderDetail], lines 358-360: [<div>*{label}: {value}</div>]. *)
Definition renderDetail (label : string) (v : value) : node :=
  Div [] [Child (VStr "*"); Child (VStr label); Child (VStr ": "); Child v].

(** [renderCategory], lines 362-382; [activeCategory] is the hook's
    current state. *)
Definition renderCategory (activeCategory : option string)
    (categoryName : string) (details : node) : node :=
  let isCategoryActive := bool_decide (activeCategory = Some categoryName) in
  Div []
    [ Div []
        [ if isCategoryActive
          then Fragment [Child (VStr categoryName);
                         Button None [Child (VStr "Hide")]]
          else Button (Some categoryName) [Child (VStr categoryName)] ];
      if isCategoryActive then details else Child VNull ].

(** The [style] of the outer [<div>], lines 385-392. *)
Definition panel_style : list (string * string) :=
  [ ("width", "100vw"); ("height", "100vh"); ("overflow", "auto");
    ("display", "flex"); ("flexDirection", "column");
    ("alignItems", "flex-start") ].

Definition renderItem (myInternalState : value) (it : item) : M node :=
  match it with
  | Detail label key =>
      v ← get_prop myInternalState key; mret (renderDetail label v)
  | Heading text => mret (Div [] [Child (VStr text)])
  end.

(** [render()], lines 353-541.  [useState] hands the method the current
    [activeCategory] (initially [null]); the details of every category are
    evaluated, whether shown or not, before [renderCategory] is called. *)
Definition render (this : t) (activeCategory : option string) : M node :=
  let myInternalState := myInternalState this in
  cs ← mapM (λ c : string * list item,
               ds ← mapM (renderItem myInternalState) c.2;
               mret (renderCategory activeCategory c.1 (Div [] ds)))
            categories;
  mret (Div panel_style cs).

End Stage.

(* ===================================================================== *)
(** ** The host's calls on one instance                                  *)
(* ===================================================================== *)

(** After construction the host calls the methods one at a time and awaits
    each; between calls it may create the objects it is about to pass.  A
    call that throws leaves the instance as it was. *)
Module Host.

Inductive call : Type :=
| Load
| SetState (state : value)
| BeforePrompt (userMessage : value)
| AfterResponse (botMessage : value)
| New (o : obj).

Definition step (c : call) (cfg : Stage.t * heap) : Stage.t * heap :=
  let '(this, h) := cfg in
  match c with
  | Load => (this, final_heap (Stage.load this h))
  | SetState state =>
      match Stage.setState this state h with
      | Return this' h' => (this', h')
      | Throw _ h' => (this, h')
      end
  | BeforePrompt m => (this, final_heap (Stage.beforePrompt this m h))
  | AfterResponse m => (this, final_heap (Stage.afterResponse this m h))
  | New o => (this, final_heap (alloc o h))
  end.

Fixpoint run (cs : list call) (cfg : Stage.t * heap) : Stage.t * heap :=
  match cs with
  | [] => cfg
  | c :: cs' => run cs' (step c cfg)
  end.

(** The working state: the properties of the object [myInternalState]
    names. *)
Definition working (cfg : Stage.t * heap) : obj :=
  own_props cfg.2 (Stage.myInternalState cfg.1).

(** The states merged in along a run: the properties, at the time of the
    call, of each non-null argument of [setState], in call order. *)
Fixpoint merged (cs : list call) (cfg : Stage.t * heap) : list obj :=
  match cs with
  | [] => []
  | c :: cs' =>
      match c with
      | SetState state =>
          if neq_null state then [own_props cfg.2 state] else []
      | _ => []
      end ++ merged cs' (step c cfg)
  end.

End Host.

(* ===================================================================== *)
(** ** Sample chats                                                      *)
(* ===================================================================== *)

(** A store with two users, one character, a persisted message state
    [{someKey: 'x', extra: 5}] and a message, and construction payloads
    over it: the two scenarios of the specification, and one payload
    whose [users] map is missing. *)
Module Sample.

Definition user_map : obj := {[ "u1" := VStr "Ann"; "u2" := VStr "Bo" ]}.
Definition character_map : obj := {[ "c1" := VStr "Cy" ]}.
Definition saved_state : obj := {[ "someKey" := VStr "x"; "extra" := VNum 5 ]}.
Definition message : obj :=
  {[ "content" := VStr "hi"; "anonymizedId" := VStr "a1"; "isBot" := VBool false ]}.

Definition store : heap :=
  {[ 1%positive := user_map; 2%positive := character_map;
     3%positive := saved_state; 4%positive := message ]}.

Definition fresh_chat : InitialData.t :=
  {| InitialData.characters := VRef 2;
     InitialData.users := VRef 1;
     InitialData.config := VNull;
     InitialData.messageState := VNull;
     InitialData.environment := VStr "production";
     InitialData.initState := VNull;
     InitialData.chatState := VNull |}.

Definition resumed_chat : InitialData.t :=
  {| InitialData.characters := VRef 2;
     InitialData.users := VRef 1;
     InitialData.config := VNull;
     InitialData.messageState := VRef 3;
     InitialData.environment := VStr "production";
     InitialData.initState := VNull;
     InitialData.chatState := VNull |}.

Definition no_users : InitialData.t :=
  {| InitialData.characters := VRef 2;
     InitialData.users := VUndefined;
     InitialData.config := VNull;
     InitialData.messageState := VNull;
     InitialData.environment := VStr "production";
     InitialData.initState := VNull;
     InitialData.chatState := VNull |}.

(** What [resumed_chat] constructs: an instance naming object 3, the
    host's own, which now carries the two counters. *)
Definition resumed : Stage.t := {| Stage.myInternalState := VRef 3 |}.

Definition resumed_store : heap :=
  <[ 3%positive := <["numChars" := VNum 1]> (<["numUsers" := VNum 2]> saved_state) ]>
    store.

Definition no_characters : InitialData.t :=
  {| InitialData.characters := VNull;
     InitialData.users := VRef 1;
     InitialData.config := VNull;
     InitialData.messageState := VRef 3;
     InitialData.environment := VStr "production";
     InitialData.initState := VNull;
     InitialData.chatState := VNull |}.

(** A stretch of chat after construction: load, a user turn, a swipe
    that restores object 1 as state, an empty restore, a bot turn. *)
Definition session : list Host.call :=
  [ Host.Load; Host.BeforePrompt (VRef 4); Host.SetState (VRef 1);
    Host.SetState VNull; Host.AfterResponse (VRef 4) ].

End Sample.

(* ===================================================================== *)
(** ** Facts about the store                                             *)
(* ===================================================================== *)

(** A reference is well formed when it names an allocated object;
    primitives always are. *)
Definition well_formed (h : heap) (v : value) : bool :=
  match v with
  | VRef l => match h !! l with Some _ => true | None => false end
  | _ => true
  end.

(** The value is (a reference to) an allocated object. *)
Definition is_object (h : heap) (v : value) : bool :=
  match v with
  | VRef l => match h !! l with Some _ => true | None => false end
  | _ => false
  end.

(** What [Object.keys(v).length] evaluates to on store [h]. *)
Definition key_count (h : heap) (v : value) : Z :=
  Z.of_nat (size (own_props h v)).

(** What [render] shows of one line, of one category and of the whole
    panel when the working state is [w] and [a] is the active category:
    a detail shows its key's value, [undefined] when the key is missing;
    a closed category shows its name only. *)
Definition shown_item (w : obj) (it : Stage.item) : list value :=
  match it with
  | Stage.Detail label key =>
      [VStr "*"; VStr label; VStr ": "; default VUndefined (w !! key)]
  | Stage.Heading text => [VStr text]
  end.

Definition shown_category (w : obj) (a : option string)
    (c : string * list Stage.item) : list value :=
  if bool_decide (a = Some c.1)
  then VStr c.1 :: VStr "Hide" :: concat (List.map (shown_item w) c.2)
  else [VStr c.1; VNull].

(** The keys a category reads. *)
Definition item_keys (it : Stage.item) : list string :=
  match it with
  | Stage.Detail _ key => [key]
  | Stage.Heading _ => []
  end.

Definition category_keys (name : string) : list string :=
  concat (List.map (λ c : string * list Stage.item,
                      if bool_decide (c.1 = name)
                      then concat (List.map item_keys c.2) else [])
                   Stage.categories).

(** Every key [render] reads. *)
Definition displayed_keys : list string :=
  concat (List.map (λ c : string * list Stage.item,
                      concat (List.map item_keys c.2))
                   Stage.categories).

(** The category names, in panel order. *)
Definition category_names : list string := List.map fst Stage.categories.

(** A click on the [i]-th button of a rendered tree runs its handler,
    which replaces the active category; a click past the last button
    changes nothing. *)
Definition click (i : nat) (t : node) (a : option string) : option string :=
  match buttons t !! i with
  | Some a' => a'
  | None => a
  end.

(** A series of clicks, the panel being rendered anew before each. *)
Fixpoint clicks (this : Stage.t) (h : heap) (ixs : list nat)
    (a : option string) : option string :=
  match ixs with
  | [] => a
  | i :: ixs' =>
      match Stage.render this a h with
      | Return t _ => clicks this h ixs' (click i t a)
      | Throw _ _ => a
      end
  end.

(** The tree [render] builds from a working state, read off its
    definition with the property reads done. *)
Definition item_view (w : obj) (it : Stage.item) : node :=
  match it with
  | Stage.Detail label key =>
      Stage.renderDetail label (default VUndefined (w !! key))
  | Stage.Heading text => Div [] [Child (VStr text)]
  end.

Definition category_view (w : obj) (a : option string)
    (c : string * list Stage.item) : node :=
  Stage.renderCategory a c.1 (Div [] (List.map (item_view w) c.2)).

Ltac unfold_M :=
  unfold mbind, M_bind, mret, M_ret in *.

Lemma fresh_unallocated (h : heap) : h !! fresh (dom h) = None.
Proof. apply not_elem_of_dom, is_fresh. Qed.

Lemma obj_at_insert_eq (h : heap) (l : loc) (o : obj) :
  obj_at (<[l := o]> h) l = o.
Proof. unfold obj_at. by rewrite lookup_insert_eq. Qed.

Lemma obj_at_insert_ne (h : heap) (l l' : loc) (o : obj) :
  l ≠ l' → obj_at (<[l := o]> h) l' = obj_at h l'.
Proof. intros Hne. unfold obj_at. by rewrite lookup_insert_ne. Qed.

Lemma obj_at_Some (h : heap) (l : loc) (o : obj) :
  h !! l = Some o → obj_at h l = o.
Proof. intros H. unfold obj_at. by rewrite H. Qed.

Lemma well_formed_ref (h : heap) (l : loc) :
  well_formed h (VRef l) = true → is_Some (h !! l).
Proof. simpl. destruct (h !! l); [eauto | discriminate]. Qed.

Lemma is_object_ref (h : heap) (v : value) :
  is_object h v = true → ∃ l o, v = VRef l ∧ h !! l = Some o.
Proof.
  destruct v; simpl; try discriminate.
  destruct (h !! l) eqn:E; [eauto | discriminate].
Qed.

Lemma is_object_neq_null (h : heap) (v : value) :
  is_object h v = true → neq_null v = true.
Proof. by destruct v. Qed.

(** Allocating never disturbs what a well-formed value already shows. *)
Lemma own_props_alloc (h : heap) (v : value) (o : obj) :
  well_formed h v = true →
  own_props (<[fresh (dom h) := o]> h) v = own_props h v.
Proof.
  destruct v; try reflexivity.
  intros [o' Ho']%well_formed_ref. simpl.
  apply obj_at_insert_ne. intros E. rewrite <- E, fresh_unallocated in Ho'.
  discriminate.
Qed.

Lemma is_object_alloc (h : heap) (v : value) (o : obj) :
  is_object h v = true → is_object (<[fresh (dom h) := o]> h) v = true.
Proof.
  intros (l & o' & -> & Hl)%is_object_ref. simpl.
  rewrite lookup_insert_ne; [by rewrite Hl |].
  intros E. rewrite <- E, fresh_unallocated in Hl. discriminate.
Qed.

Lemma length_keys (o : obj) : length (map_to_list o).*1 = size o.
Proof. by rewrite length_fmap, length_map_to_list. Qed.

Lemma Object_keys_length (h : heap) (v : value) :
  neq_null v = true →
  Object_keys v h = Return (map_to_list (own_props h v)).*1 h ∧
  Z.of_nat (length (map_to_list (own_props h v)).*1) = key_count h v.
Proof.
  intros Hv. unfold Object_keys, key_count. rewrite Hv.
  by rewrite length_keys.
Qed.

(** A string has as many index properties as characters. *)
Lemma string_props_size (s : string) :
  size (string_props s) = String.length s.
Proof.
  unfold string_props. rewrite map_size_list_to_map.
  - rewrite length_imap. induction s; simpl; [done | by f_equal].
  - rewrite fmap_imap. apply NoDup_alt. intros i j k.
    rewrite !list_lookup_imap.
    destruct (_ !! i), (_ !! j); simpl; try discriminate.
    intros [= <-] [= E]. by apply (inj pretty) in E.
Qed.

(* ===================================================================== *)
(** ** The constructor                                                   *)
(* ===================================================================== *)

Section Construction.

Variable d : InitialData.t.
Variable h : heap.

Let prior := InitialData.messageState d.
Let users := InitialData.users d.
Let characters := InitialData.characters d.

(** With a prior state that is an object, the constructor writes the two
    counters into that very object. *)
Lemma constructor_prior (l : loc) :
  prior = VRef l →
  neq_null users = true →
  neq_null characters = true →
  let nu := key_count h users in
  let h1 := <[l := <["numUsers" := VNum nu]> (obj_at h l)]> h in
  let nc := key_count h1 characters in
  Stage.constructor d h =
    Return {| Stage.myInternalState := VRef l |}
           (<[l := <["numChars" := VNum nc]>
                     (<["numUsers" := VNum nu]> (obj_at h l))]> h).
Proof.
  intros Hp Hu Hc nu h1 nc.
  unfold Stage.constructor, Stage.StageBase_constructor. unfold_M.
  fold prior users characters. rewrite Hp. simpl.
  destruct (Object_keys_length h users Hu) as [-> ->]. simpl.
  fold nu h1.
  destruct (Object_keys_length h1 characters Hc) as [-> ->]. simpl.
  fold nc. f_equal. unfold h1.
  by rewrite obj_at_insert_eq, insert_insert_eq.
Qed.

(** Without a prior state, it allocates the seed and writes the counters
    into it. *)
Lemma constructor_seed :
  neq_null prior = false →
  neq_null users = true →
  neq_null characters = true →
  let l := fresh (dom h) in
  let h0 := <[l := Stage.seed]> h in
  let nu := key_count h0 users in
  let h1 := <[l := <["numUsers" := VNum nu]> Stage.seed]> h in
  let nc := key_count h1 characters in
  Stage.constructor d h =
    Return {| Stage.myInternalState := VRef l |}
           (<[l := <["numChars" := VNum nc]>
                     (<["numUsers" := VNum nu]> Stage.seed)]> h).
Proof.
  intros Hp Hu Hc l h0 nu h1 nc.
  unfold Stage.constructor, Stage.StageBase_constructor. unfold_M.
  fold prior users characters. rewrite Hp. simpl.
  fold l h0.
  destruct (Object_keys_length h0 users Hu) as [-> ->]. simpl.
  fold nu. unfold h0 at 1 2. rewrite obj_at_insert_eq, insert_insert_eq.
  fold h1.
  destruct (Object_keys_length h1 characters Hc) as [-> ->]. simpl.
  fold nc. f_equal. unfold h1.
  by rewrite obj_at_insert_eq, insert_insert_eq.
Qed.

(** The constructor returns exactly when [users] and [characters] are
    there and the prior state is absent or an object. *)
Lemma constructor_returns :
  returns (Stage.constructor d h) =
    neq_null users && neq_null characters &&
    match prior with
    | VRef _ | VUndefined | VNull => true
    | _ => false
    end.
Proof.
  destruct (neq_null users) eqn:Hu; simpl.
  - destruct (neq_null characters) eqn:Hc; simpl.
    + destruct prior eqn:Hp.
      1,2: by rewrite constructor_seed; [| fold prior; rewrite Hp | |].
      4: by rewrite (constructor_prior l).
      all: unfold Stage.constructor, Stage.StageBase_constructor; unfold_M;
        fold prior users characters; rewrite Hp; simpl;
        by destruct (Object_keys_length h users Hu) as [-> _].
    + unfold Stage.constructor, Stage.StageBase_constructor, Object_keys.
      unfold_M. fold prior users characters. rewrite Hu, Hc.
      by destruct prior.
  - unfold Stage.constructor, Stage.StageBase_constructor. unfold_M.
    fold prior users characters.
    destruct (neq_null prior); simpl; unfold Object_keys; by rewrite Hu.
Qed.

Lemma constructor_Return_inv (this : Stage.t) (h' : heap) :
  Stage.constructor d h = Return this h' →
  neq_null users = true ∧
  neq_null characters = true ∧
  (neq_null prior = false ∨ ∃ l, prior = VRef l).
Proof.
  intros Hc. pose proof constructor_returns as Hr.
  rewrite Hc in Hr. simpl in Hr. symmetry in Hr.
  apply andb_true_iff in Hr as [[Hu Hch]%andb_true_iff Hp].
  split; [done |]. split; [done |].
  destruct prior; try discriminate; eauto.
Qed.

End Construction.

(** The constructor leaves the instance naming an allocated object. *)
Lemma constructor_is_object (d : InitialData.t) (h h' : heap) (this : Stage.t) :
  Stage.constructor d h = Return this h' →
  is_object h' (Stage.myInternalState this) = true.
Proof.
  intros Hc.
  destruct (constructor_Return_inv d h this h' Hc) as (Hu & Hch & [Hp | [l Hp]]).
  - rewrite (constructor_seed d h Hp Hu Hch) in Hc.
    injection Hc as <- <-. simpl. by rewrite lookup_insert_eq.
  - rewrite (constructor_prior d h l Hp Hu Hch) in Hc.
    injection Hc as <- <-. simpl. by rewrite lookup_insert_eq.
Qed.

(** Right after an object is written at [l], an instance naming [l] has
    that object as its working state. *)
Lemma working_insert (h : heap) (l : loc) (o : obj) :
  Host.working ({| Stage.myInternalState := VRef l |}, <[l := o]> h) = o.
Proof. unfold Host.working. simpl. apply obj_at_insert_eq. Qed.

(** C5. Constructed without a prior message state (and with the [users]
    and [characters] maps supplied), the working state has exactly three
    keys: [someKey] holding ['someValue'], [numUsers] holding the number of
    keys of [users] and [numChars] holding the number of keys of
    [characters]. *)
Theorem constructor_seed_counters (d : InitialData.t) (h : heap) :
  neq_null (InitialData.messageState d) = false →
  neq_null (InitialData.users d) = true →
  neq_null (InitialData.characters d) = true →
  well_formed h (InitialData.users d) = true →
  well_formed h (InitialData.characters d) = true →
  ∃ this h',
    Stage.constructor d h = Return this h' ∧
    Host.working (this, h') =
      <["numChars" := VNum (key_count h (InitialData.characters d))]>
        (<["numUsers" := VNum (key_count h (InitialData.users d))]>
           {[ "someKey" := VStr "someValue" ]}) ∧
    dom (Host.working (this, h')) =
      ({[ "someKey"; "numUsers"; "numChars" ]} : gset string) ∧
    size (Host.working (this, h')) = 3.
Proof.
  intros Hp Hu Hc Wu Wc.
  rewrite (constructor_seed d h Hp Hu Hc).
  eexists _, _. split; [reflexivity |].
  rewrite working_insert. unfold key_count.
  rewrite !own_props_alloc by done. change Stage.seed with
    ({[ "someKey" := VStr "someValue" ]} : gmap string value).
  split; [reflexivity |]. split.
  - rewrite !dom_insert_L, dom_singleton_L. set_solver.
  - rewrite !map_size_insert_None, map_size_singleton; [done | |].
    + by rewrite lookup_singleton_ne.
    + rewrite lookup_insert_ne by done. by rewrite lookup_singleton_ne.
Qed.

Lemma constructor_seed_counters_witness :
  ∃ this h',
    Stage.constructor Sample.fresh_chat Sample.store = Return this h' ∧
    Host.working (this, h') =
      <["numChars" := VNum (key_count Sample.store (VRef 2))]>
        (<["numUsers" := VNum (key_count Sample.store (VRef 1))]>
           {[ "someKey" := VStr "someValue" ]}) ∧
    dom (Host.working (this, h')) =
      ({[ "someKey"; "numUsers"; "numChars" ]} : gset string) ∧
    size (Host.working (this, h')) = 3.
Proof.
  apply (constructor_seed_counters Sample.fresh_chat Sample.store);
    vm_compute; reflexivity.
Defined.

(** The first scenario of the specification: two users and one character
    give [numUsers: 2] and [numChars: 1]. *)
Example fresh_chat_counts :
  key_count Sample.store (VRef 1) = 2%Z ∧ key_count Sample.store (VRef 2) = 1%Z.
Proof. split; vm_compute; reflexivity. Qed.

(* ===================================================================== *)
(** ** [setState]                                                        *)
(* ===================================================================== *)

(** What [setState] does with a non-null argument: a new object holding
    the merge, which the instance then names. *)
Lemma setState_non_null (this : Stage.t) (state : value) (h : heap) :
  neq_null state = true →
  Stage.setState this state h =
    Return {| Stage.myInternalState := VRef (fresh (dom h)) |}
           (<[fresh (dom h) :=
                merge (own_props h (Stage.myInternalState this))
                      (own_props h state)]> h).
Proof. intros Hs. unfold Stage.setState. by rewrite Hs. Qed.

Lemma setState_nullish (this : Stage.t) (state : value) (h : heap) :
  neq_null state = false → Stage.setState this state h = Return this h.
Proof. intros Hs. unfold Stage.setState. by rewrite Hs. Qed.

Lemma lookup_merge (a b : obj) (k : string) :
  merge a b !! k = match b !! k with Some v => Some v | None => a !! k end.
Proof.
  unfold merge. rewrite lookup_union. destruct (b !! k), (a !! k); done.
Qed.

Lemma merge_assoc (a b c : obj) : merge (merge a b) c = merge a (merge b c).
Proof. unfold merge. by rewrite (assoc_L (∪)). Qed.

(** C2. [setState] always returns.  With a non-null argument the working
    state afterwards is the shallow merge of the working state before with
    the argument, the argument's keys overriding; with [null] (or
    [undefined]) the working state is the one before. *)
Theorem setState_shallow_merge (this : Stage.t) (state : value) (h : heap) :
  ∃ this' h',
    Stage.setState this state h = Return this' h' ∧
    Host.working (this', h') =
      (if neq_null state
       then merge (Host.working (this, h)) (own_props h state)
       else Host.working (this, h)) ∧
    ∀ k : string,
      Host.working (this', h') !! k =
        if neq_null state
        then match own_props h state !! k with
             | Some v => Some v
             | None => Host.working (this, h) !! k
             end
        else Host.working (this, h) !! k.
Proof.
  destruct (neq_null state) eqn:Hs.
  - rewrite setState_non_null by done. eexists _, _.
    split; [reflexivity |]. rewrite working_insert.
    split; [reflexivity |]. intros k. apply lookup_merge.
  - rewrite setState_nullish by done. by eexists _, _.
Qed.

(** C3. Two successive [setState] calls with non-null [s1] then [s2] leave
    a working state that, on the keys of [s1] and [s2], is [{...s1, ...s2}];
    as a whole it is the working state before merged with [{...s1, ...s2}]
    (merging is associative), and every key of [s2] holds [s2]'s value
    (the last write wins). *)
Theorem setState_twice (this : Stage.t) (s1 s2 : value) (h : heap) :
  neq_null s1 = true →
  neq_null s2 = true →
  ∃ this1 h1 this2 h2,
    Stage.setState this s1 h = Return this1 h1 ∧
    Stage.setState this1 s2 h1 = Return this2 h2 ∧
    let p1 := own_props h s1 in
    let p2 := own_props h1 s2 in
    filter (λ kv, kv.1 ∈ dom p1 ∪ dom p2) (Host.working (this2, h2)) =
      merge p1 p2 ∧
    Host.working (this2, h2) = merge (Host.working (this, h)) (merge p1 p2) ∧
    (∀ k v, p2 !! k = Some v → Host.working (this2, h2) !! k = Some v) ∧
    (∀ k v, p2 !! k = None → p1 !! k = Some v →
            Host.working (this2, h2) !! k = Some v).
Proof.
  intros H1 H2.
  rewrite (setState_non_null this s1 h H1). eexists _, _.
  rewrite setState_non_null by done. eexists _, _.
  split; [reflexivity |]. split; [reflexivity |].
  rewrite working_insert. simpl. rewrite obj_at_insert_eq.
  set (w := own_props h (Stage.myInternalState this)).
  set (p1 := own_props h s1). set (p2 := own_props _ s2).
  change (Host.working (this, h)) with w.
  split; [| split; [apply merge_assoc | split]].
  - apply map_eq. intros k. rewrite map_lookup_filter, !lookup_merge. simpl.
    destruct (p2 !! k) eqn:E2; simpl.
    + rewrite option_guard_True; [done |].
      apply elem_of_union_r, elem_of_dom. eauto.
    + destruct (p1 !! k) eqn:E1; simpl.
      * rewrite option_guard_True; [done |].
        apply elem_of_union_l, elem_of_dom. eauto.
      * destruct (w !! k); simpl; [| done].
        rewrite option_guard_False; [done |].
        rewrite elem_of_union, !elem_of_dom, E1, E2.
        intros [[? ?] | [? ?]]; discriminate.
  - intros k v E. by rewrite !lookup_merge, E.
  - intros k v E2 E1. by rewrite !lookup_merge, E2, E1.
Qed.

Lemma setState_twice_witness :
  ∃ this1 h1 this2 h2,
    Stage.setState Sample.resumed (VRef 1) Sample.resumed_store = Return this1 h1 ∧
    Stage.setState this1 (VRef 2) h1 = Return this2 h2 ∧
    let p1 := own_props Sample.resumed_store (VRef 1) in
    let p2 := own_props h1 (VRef 2) in
    filter (λ kv, kv.1 ∈ dom p1 ∪ dom p2) (Host.working (this2, h2)) =
      merge p1 p2 ∧
    Host.working (this2, h2) =
      merge (Host.working (Sample.resumed, Sample.resumed_store)) (merge p1 p2) ∧
    (∀ k v, p2 !! k = Some v → Host.working (this2, h2) !! k = Some v) ∧
    (∀ k v, p2 !! k = None → p1 !! k = Some v →
            Host.working (this2, h2) !! k = Some v).
Proof.
  apply (setState_twice Sample.resumed (VRef 1) (VRef 2) Sample.resumed_store);
    reflexivity.
Defined.

(** The first call leaves the objects the host already holds as they
    were, so [s2] may as well be read on the store before it. *)
Lemma setState_keeps_arguments (this : Stage.t) (s1 s2 : value) (h : heap) :
  well_formed h s2 = true →
  own_props (final_heap (Stage.setState this s1 h)) s2 = own_props h s2.
Proof.
  intros W. destruct (neq_null s1) eqn:H1.
  - rewrite setState_non_null by done. simpl. by apply own_props_alloc.
  - by rewrite setState_nullish.
Qed.

(** C4. [setState(null)] changes nothing: it returns the same instance,
    naming the same object, on the same store. *)
Theorem setState_null_noop (this : Stage.t) (h : heap) :
  Stage.setState this VNull h = Return this h ∧
  Host.step (Host.SetState VNull) (this, h) = (this, h).
Proof. split; reflexivity. Qed.

(* ===================================================================== *)
(** ** [load]                                                            *)
(* ===================================================================== *)

(** C7. Whatever the instance was constructed from, [load] resolves with
    [success: true] and [error], [initState] and [chatState] all [null],
    and touches nothing. *)
Theorem load_succeeds (this : Stage.t) (h : heap) :
  Stage.load this h =
    Return {| LoadResponse.success := VBool true;
              LoadResponse.error := VNull;
              LoadResponse.initState := VNull;
              LoadResponse.chatState := VNull |} h.
Proof. reflexivity. Qed.

(* ===================================================================== *)
(** ** The turn hooks                                                    *)
(* ===================================================================== *)

(** Both hooks, on a message that is there: three reads of the message,
    one of the working state, one new object. *)
Lemma beforePrompt_returns (this : Stage.t) (m : value) (h : heap) :
  neq_null m = true →
  neq_null (Stage.myInternalState this) = true →
  Stage.beforePrompt this m h =
    Return {| StageResponse.stageDirections := VNull;
              StageResponse.messageState := VRef (fresh (dom h));
              StageResponse.modifiedMessage := VNull;
              StageResponse.systemMessage := VNull;
              StageResponse.error := VNull;
              StageResponse.chatState := VNull |}
           (<[fresh (dom h) :=
                {[ "someKey" :=
                     default VUndefined (Host.working (this, h) !! "someKey") ]}]> h).
Proof.
  intros Hm Hs. unfold Stage.beforePrompt, get_prop, alloc. unfold_M.
  by rewrite Hm, Hs.
Qed.

Lemma afterResponse_returns (this : Stage.t) (m : value) (h : heap) :
  neq_null m = true →
  neq_null (Stage.myInternalState this) = true →
  Stage.afterResponse this m h =
    Return {| StageResponse.stageDirections := VNull;
              StageResponse.messageState := VRef (fresh (dom h));
              StageResponse.modifiedMessage := VNull;
              StageResponse.systemMessage := VNull;
              StageResponse.error := VNull;
              StageResponse.chatState := VNull |}
           (<[fresh (dom h) :=
                {[ "someKey" :=
                     default VUndefined (Host.working (this, h) !! "someKey") ]}]> h).
Proof.
  intros Hm Hs. unfold Stage.afterResponse, get_prop, alloc. unfold_M.
  by rewrite Hm, Hs.
Qed.

(** X5. Without a message ([null] or [undefined]) both hooks throw a
    [TypeError] at the first read, before anything is written: the store
    is left as it was. *)
Lemma hooks_throw_without_message (this : Stage.t) (m : value) (h : heap) :
  neq_null m = false →
  Stage.beforePrompt this m h = Throw TypeError h ∧
  Stage.afterResponse this m h = Throw TypeError h.
Proof.
  intros Hm. unfold Stage.beforePrompt, Stage.afterResponse, get_prop.
  unfold_M. by rewrite Hm.
Qed.

(** The hooks only ever add an object to the store. *)
Lemma hooks_extend_store (this : Stage.t) (m : value) (h : heap) :
  h ⊆ final_heap (Stage.beforePrompt this m h) ∧
  h ⊆ final_heap (Stage.afterResponse this m h).
Proof.
  unfold Stage.beforePrompt, Stage.afterResponse, get_prop, alloc. unfold_M.
  destruct (neq_null m); [| done].
  destruct (neq_null (Stage.myInternalState this)); [| done]. simpl.
  split; apply insert_subseteq, fresh_unallocated.
Qed.

(** Hence an instance naming an allocated object sees the same object
    after either hook. *)
Lemma hooks_frame (this : Stage.t) (m : value) (h : heap) :
  is_object h (Stage.myInternalState this) = true →
  Host.working (this, final_heap (Stage.beforePrompt this m h)) =
    Host.working (this, h) ∧
  Host.working (this, final_heap (Stage.afterResponse this m h)) =
    Host.working (this, h).
Proof.
  intros (l & o & Hl & Ho)%is_object_ref.
  destruct (hooks_extend_store this m h) as [Hb Ha].
  unfold Host.working. simpl. rewrite Hl. simpl.
  rewrite (obj_at_Some h l o Ho).
  split; apply obj_at_Some; by eapply lookup_weaken.
Qed.

(** C6. On every message object, whichever of [content], [anonymizedId]
    and [isBot] it carries, [beforePrompt] and [afterResponse] return (they
    do not throw), with [stageDirections], [modifiedMessage],
    [systemMessage], [error] and [chatState] all [null] and [messageState] a
    new object [{someKey: v}], [v] being the working state's current
    [someKey] ([undefined] when it has none); no other key of the working
    state is echoed. *)
Theorem hooks_echo_someKey (this : Stage.t) (m : value) (h : heap) :
  neq_null m = true →
  is_object h (Stage.myInternalState this) = true →
  ∃ (ms : loc) (h' : heap),
    let r := {| StageResponse.stageDirections := VNull;
                StageResponse.messageState := VRef ms;
                StageResponse.modifiedMessage := VNull;
                StageResponse.systemMessage := VNull;
                StageResponse.error := VNull;
                StageResponse.chatState := VNull |} in
    let v := default VUndefined (Host.working (this, h) !! "someKey") in
    Stage.beforePrompt this m h = Return r h' ∧
    Stage.afterResponse this m h = Return r h' ∧
    h !! ms = None ∧
    h' !! ms = Some {[ "someKey" := v ]} ∧
    own_props h' (VRef ms) = {[ "someKey" := v ]}.
Proof.
  intros Hm Hs%is_object_neq_null.
  exists (fresh (dom h)). eexists. cbv zeta.
  rewrite beforePrompt_returns, afterResponse_returns by done.
  split; [reflexivity |]. split; [reflexivity |].
  split; [apply fresh_unallocated |].
  split; [apply lookup_insert_eq | apply obj_at_insert_eq].
Qed.

Lemma hooks_echo_someKey_witness :
  ∃ (ms : loc) (h' : heap),
    let r := {| StageResponse.stageDirections := VNull;
                StageResponse.messageState := VRef ms;
                StageResponse.modifiedMessage := VNull;
                StageResponse.systemMessage := VNull;
                StageResponse.error := VNull;
                StageResponse.chatState := VNull |} in
    let v := default VUndefined
               (Host.working (Sample.resumed, Sample.resumed_store) !! "someKey") in
    Stage.beforePrompt Sample.resumed (VRef 4) Sample.resumed_store = Return r h' ∧
    Stage.afterResponse Sample.resumed (VRef 4) Sample.resumed_store = Return r h' ∧
    Sample.resumed_store !! ms = None ∧
    h' !! ms = Some {[ "someKey" := v ]} ∧
    own_props h' (VRef ms) = {[ "someKey" := v ]}.
Proof.
  apply (hooks_echo_someKey Sample.resumed (VRef 4) Sample.resumed_store);
    vm_compute; reflexivity.
Defined.

(** The second scenario of the specification: the state restored is
    [{someKey: 'x', extra: 5}], and the echo carries ['x']. *)
Example resumed_chat_echo :
  default VUndefined (Host.working (Sample.resumed, Sample.resumed_store) !! "someKey")
  = VStr "x".
Proof. vm_compute. reflexivity. Qed.

(** A message with none of the three fields (here the character map,
    passed as a message) is answered like any other. *)
Example hooks_on_bare_message :
  returns (Stage.beforePrompt Sample.resumed (VRef 2) Sample.resumed_store) = true ∧
  returns (Stage.afterResponse Sample.resumed (VRef 2) Sample.resumed_store) = true.
Proof. split; vm_compute; reflexivity. Qed.

(** C10. Neither hook changes the working state, whatever the message
    (missing or not): the instance still names the same object, and that
    object has the same keys and values. *)
Theorem hooks_leave_working_state (this : Stage.t) (m : value) (h : heap) :
  is_object h (Stage.myInternalState this) = true →
  Host.step (Host.BeforePrompt m) (this, h) =
    (this, final_heap (Stage.beforePrompt this m h)) ∧
  Host.step (Host.AfterResponse m) (this, h) =
    (this, final_heap (Stage.afterResponse this m h)) ∧
  Host.working (this, final_heap (Stage.beforePrompt this m h)) =
    Host.working (this, h) ∧
  Host.working (this, final_heap (Stage.afterResponse this m h)) =
    Host.working (this, h).
Proof.
  intros Hobj.
  split; [reflexivity |]. split; [reflexivity |].
  by apply hooks_frame.
Qed.

Lemma hooks_leave_working_state_witness :
  Host.step (Host.BeforePrompt (VRef 4)) (Sample.resumed, Sample.resumed_store) =
    (Sample.resumed,
     final_heap (Stage.beforePrompt Sample.resumed (VRef 4) Sample.resumed_store)) ∧
  Host.step (Host.AfterResponse (VRef 4)) (Sample.resumed, Sample.resumed_store) =
    (Sample.resumed,
     final_heap (Stage.afterResponse Sample.resumed (VRef 4) Sample.resumed_store)) ∧
  Host.working
    (Sample.resumed,
     final_heap (Stage.beforePrompt Sample.resumed (VRef 4) Sample.resumed_store)) =
    Host.working (Sample.resumed, Sample.resumed_store) ∧
  Host.working
    (Sample.resumed,
     final_heap (Stage.afterResponse Sample.resumed (VRef 4) Sample.resumed_store)) =
    Host.working (Sample.resumed, Sample.resumed_store).
Proof.
  apply (hooks_leave_working_state Sample.resumed (VRef 4) Sample.resumed_store).
  vm_compute. reflexivity.
Defined.

(* ===================================================================== *)
(** ** Construction: sharing and failure                                 *)
(* ===================================================================== *)

(** C9. Given a prior message state that is an object, the constructor
    keeps that very object as the working state: the instance names the
    host's reference, no object is allocated, and the host's object itself
    now carries [numUsers] and [numChars] (added or overwritten), every
    other key and every other object being as before. *)
Theorem constructor_aliases_prior
    (d : InitialData.t) (h : heap) (l : loc) (o : obj) :
  InitialData.messageState d = VRef l →
  h !! l = Some o →
  neq_null (InitialData.users d) = true →
  neq_null (InitialData.characters d) = true →
  let nu := key_count h (InitialData.users d) in
  let nc := key_count (<[l := <["numUsers" := VNum nu]> o]> h)
                      (InitialData.characters d) in
  let h' := <[l := <["numChars" := VNum nc]> (<["numUsers" := VNum nu]> o)]> h in
  Stage.constructor d h = Return {| Stage.myInternalState := VRef l |} h' ∧
  dom h' = dom h ∧
  own_props h' (InitialData.messageState d) !! "numUsers" = Some (VNum nu) ∧
  own_props h' (InitialData.messageState d) !! "numChars" = Some (VNum nc) ∧
  (∀ k, k ≠ "numUsers" → k ≠ "numChars" →
        own_props h' (InitialData.messageState d) !! k = o !! k) ∧
  (∀ l', l' ≠ l → h' !! l' = h !! l').
Proof.
  intros Hp Ho Hu Hc nu nc h'.
  split.
  - rewrite (constructor_prior d h l Hp Hu Hc).
    by rewrite (obj_at_Some h l o Ho).
  - rewrite Hp. unfold h'. simpl. rewrite obj_at_insert_eq.
    split; [| split; [| split; [| split]]].
    + apply dom_insert_lookup_L. eauto.
    + rewrite lookup_insert_ne by done. apply lookup_insert_eq.
    + apply lookup_insert_eq.
    + intros k K1 K2. by rewrite !lookup_insert_ne.
    + intros l' Hl'. by rewrite lookup_insert_ne.
Qed.

Lemma constructor_aliases_prior_witness :
  let nu := key_count Sample.store (VRef 1) in
  let nc := key_count (<[3%positive := <["numUsers" := VNum nu]> Sample.saved_state]>
                         Sample.store) (VRef 2) in
  let h' := <[3%positive := <["numChars" := VNum nc]>
                   (<["numUsers" := VNum nu]> Sample.saved_state)]> Sample.store in
  Stage.constructor Sample.resumed_chat Sample.store =
    Return {| Stage.myInternalState := VRef 3 |} h' ∧
  dom h' = dom Sample.store ∧
  own_props h' (VRef 3) !! "numUsers" = Some (VNum nu) ∧
  own_props h' (VRef 3) !! "numChars" = Some (VNum nc) ∧
  (∀ k, k ≠ "numUsers" → k ≠ "numChars" →
        own_props h' (VRef 3) !! k = Sample.saved_state !! k) ∧
  (∀ l', l' ≠ 3%positive → h' !! l' = Sample.store !! l').
Proof.
  apply (constructor_aliases_prior Sample.resumed_chat Sample.store 3%positive
           Sample.saved_state); vm_compute; reflexivity.
Defined.

(** The second scenario of the specification, run: the host's object 3
    ends up with [numUsers: 2] and [numChars: 1] next to its own keys. *)
Example resumed_chat_constructed :
  Stage.constructor Sample.resumed_chat Sample.store =
    Return Sample.resumed Sample.resumed_store.
Proof. vm_compute. reflexivity. Qed.

(** Counterexample to C8 as stated: with the [users] map absent,
    [Object.keys(users)] throws and construction fails (after the seed
    object was allocated). *)
Lemma constructor_fails_without_users :
  Stage.constructor Sample.no_users Sample.store =
    Throw TypeError (<[5%positive := Stage.seed]> Sample.store) ∧
  ¬ ∃ this h', Stage.constructor Sample.no_users Sample.store = Return this h'.
Proof.
  assert (Stage.constructor Sample.no_users Sample.store =
            Throw TypeError (<[5%positive := Stage.seed]> Sample.store)) as E
    by (vm_compute; reflexivity).
  split; [exact E |]. intros (this & h' & H). rewrite E in H. discriminate.
Qed.

(** C8, amended. Construction succeeds exactly when the [users] and
    [characters] maps are present and the prior message state is absent
    ([null] or [undefined]) or an object; [config], [environment],
    [initState] and [chatState] play no part, so their absence never makes
    it fail. *)
Theorem constructor_total_iff (d : InitialData.t) (h : heap) :
  (∃ this h', Stage.constructor d h = Return this h') ↔
  neq_null (InitialData.users d) = true ∧
  neq_null (InitialData.characters d) = true ∧
  (neq_null (InitialData.messageState d) = false ∨
   ∃ l, InitialData.messageState d = VRef l).
Proof.
  split.
  - intros (this & h' & Hc). by eapply constructor_Return_inv.
  - intros (Hu & Hch & [Hp | [l Hp]]).
    + rewrite (constructor_seed d h Hp Hu Hch). eauto.
    + rewrite (constructor_prior d h l Hp Hu Hch). eauto.
Qed.

(* ===================================================================== *)
(** ** The working state over the instance's lifetime                    *)
(* ===================================================================== *)

(** One call: only [setState] with a non-null argument moves the working
    state, and it moves it by one merge.  The instance keeps naming an
    allocated object. *)
Lemma step_working (c : Host.call) (this : Stage.t) (h : heap) :
  is_object h (Stage.myInternalState this) = true →
  is_object (Host.step c (this, h)).2
            (Stage.myInternalState (Host.step c (this, h)).1) = true ∧
  Host.working (Host.step c (this, h)) =
    foldl merge (Host.working (this, h)) (Host.merged [c] (this, h)).
Proof.
  intros Hobj. destruct c as [| state | m | m | o]; simpl.
  - done.
  - destruct (neq_null state) eqn:Hs.
    + rewrite setState_non_null by done. simpl.
      rewrite lookup_insert_eq. split; [done |].
      by rewrite working_insert.
    + by rewrite setState_nullish.
  - destruct (hooks_frame this m h Hobj) as [Hw _].
    split; [| exact Hw].
    destruct (hooks_extend_store this m h) as [Hb _].
    apply is_object_ref in Hobj as (l & o & -> & Ho). simpl.
    by rewrite (lookup_weaken _ _ _ _ Ho Hb).
  - destruct (hooks_frame this m h Hobj) as [_ Hw].
    split; [| exact Hw].
    destruct (hooks_extend_store this m h) as [_ Ha].
    apply is_object_ref in Hobj as (l & o' & -> & Ho). simpl.
    by rewrite (lookup_weaken _ _ _ _ Ho Ha).
  - split; [by apply is_object_alloc |].
    unfold Host.working. simpl. apply own_props_alloc.
    by destruct (Stage.myInternalState this).
Qed.

(** A whole run: the working state is the fold of the merges made. *)
Lemma run_working (cs : list Host.call) (this : Stage.t) (h : heap) :
  is_object h (Stage.myInternalState this) = true →
  Host.working (Host.run cs (this, h)) =
    foldl merge (Host.working (this, h)) (Host.merged cs (this, h)).
Proof.
  revert this h. induction cs as [| c cs IH]; intros this h Hobj; [done |].
  destruct (step_working c this h Hobj) as [Hobj' Hw].
  cbn [Host.run Host.merged]. rewrite foldl_app.
  destruct (Host.step c (this, h)) as [this' h'] eqn:Hstep.
  rewrite (IH this' h' Hobj'). f_equal.
  rewrite Hw. cbn [Host.merged]. by rewrite app_nil_r.
Qed.

(** What construction leaves as working state: the prior state's
    properties, or the seed, under the two counters. *)
Lemma constructor_working (d : InitialData.t) (h h' : heap) (this : Stage.t) :
  Stage.constructor d h = Return this h' →
  ∃ nu nc : Z,
    Host.working (this, h') =
      <["numChars" := VNum nc]>
        (<["numUsers" := VNum nu]>
           (if neq_null (InitialData.messageState d)
            then own_props h (InitialData.messageState d)
            else Stage.seed)).
Proof.
  intros Hc.
  destruct (constructor_Return_inv d h this h' Hc) as (Hu & Hch & [Hp | [l Hp]]).
  - rewrite (constructor_seed d h Hp Hu Hch) in Hc. injection Hc as <- <-.
    rewrite Hp, working_insert. eauto.
  - rewrite (constructor_prior d h l Hp Hu Hch) in Hc. injection Hc as <- <-.
    rewrite Hp, working_insert. simpl. eauto.
Qed.

(** C1. At every point of the instance's lifetime (after any sequence of
    host calls following a construction that returned) the working state
    is the result of successive shallow merges, right-hand side winning,
    of the non-null [setState] arguments in call order, starting from the
    prior message state (when the host restored one) or from the seed
    [{someKey: 'someValue'}], with [numUsers] and [numChars] written in at
    construction. *)
Theorem working_state_merge_history
    (d : InitialData.t) (h0 h1 : heap) (this : Stage.t) (cs : list Host.call) :
  Stage.constructor d h0 = Return this h1 →
  ∃ nu nc : Z,
    Host.working (Host.run cs (this, h1)) =
      foldl merge
        (<["numChars" := VNum nc]>
           (<["numUsers" := VNum nu]>
              (if neq_null (InitialData.messageState d)
               then own_props h0 (InitialData.messageState d)
               else Stage.seed)))
        (Host.merged cs (this, h1)).
Proof.
  intros Hc.
  destruct (constructor_working d h0 h1 this Hc) as (nu & nc & Hw).
  exists nu, nc. rewrite <- Hw.
  apply run_working. by eapply constructor_is_object.
Qed.

Lemma working_state_merge_history_witness :
  ∃ nu nc : Z,
    Host.working
      (Host.run Sample.session (Sample.resumed, Sample.resumed_store)) =
      foldl merge
        (<["numChars" := VNum nc]>
           (<["numUsers" := VNum nu]>
              (if neq_null (InitialData.messageState Sample.resumed_chat)
               then own_props Sample.store
                      (InitialData.messageState Sample.resumed_chat)
               else Stage.seed)))
        (Host.merged Sample.session (Sample.resumed, Sample.resumed_store)).
Proof.
  apply (working_state_merge_history Sample.resumed_chat Sample.store
           Sample.resumed_store Sample.resumed Sample.session).
  vm_compute. reflexivity.
Defined.

(** The sample session, run: one merge was made, of the users object, and
    the working state is the restored state with the counters and the two
    user keys. *)
Example session_merges :
  Host.merged Sample.session (Sample.resumed, Sample.resumed_store) =
    [Sample.user_map] ∧
  Host.working (Host.run Sample.session (Sample.resumed, Sample.resumed_store)) =
    merge (<["numChars" := VNum 1]> (<["numUsers" := VNum 2]> Sample.saved_state))
          Sample.user_map.
Proof. split; vm_compute; reflexivity. Qed.

(* ===================================================================== *)
(** ** Further properties of the lifecycle                               *)
(* ===================================================================== *)

Lemma is_object_well_formed (h : heap) (v : value) :
  is_object h v = true → well_formed h v = true.
Proof. by destruct v. Qed.

Lemma merge_empty (w : obj) : merge w ∅ = w.
Proof. unfold merge. apply (left_id_L ∅ (∪)). Qed.

Lemma merge_twice (w p : obj) : merge (merge w p) p = merge w p.
Proof. unfold merge. by rewrite (assoc_L (∪)), (idemp_L (∪)). Qed.

Lemma own_props_nullish (h : heap) (v : value) :
  neq_null v = false → own_props h v = ∅.
Proof. by destruct v. Qed.

(** One [setState] call, null or not, as a merge: a null argument has no
    properties to merge. *)
Lemma setState_step_working (this : Stage.t) (state : value) (h : heap) :
  Host.working (Host.step (Host.SetState state) (this, h)) =
    merge (Host.working (this, h)) (own_props h state) ∧
  (Host.step (Host.SetState state) (this, h)).2 =
    final_heap (Stage.setState this state h).
Proof.
  simpl. destruct (neq_null state) eqn:Hs.
  - rewrite setState_non_null by done. by rewrite working_insert.
  - rewrite setState_nullish by done.
    by rewrite (own_props_nullish h state Hs), merge_empty.
Qed.

(** X1. With a non-null argument [setState] builds a new object: the
    instance then names a location that was unused, one object is added to
    the store and every object that was there (the argument and the former
    working object among them) is left as it was. *)
Theorem setState_copies (this : Stage.t) (state : value) (h : heap) :
  neq_null state = true →
  ∃ (l : loc) (h' : heap),
    Stage.setState this state h =
      Return {| Stage.myInternalState := VRef l |} h' ∧
    h !! l = None ∧
    h ⊆ h' ∧
    dom h' = {[ l ]} ∪ dom h.
Proof.
  intros Hs. rewrite setState_non_null by done. eexists _, _.
  split; [reflexivity |]. split; [apply fresh_unallocated |].
  split; [apply insert_subseteq, fresh_unallocated | apply dom_insert_L].
Qed.

Lemma setState_copies_witness :
  ∃ (l : loc) (h' : heap),
    Stage.setState Sample.resumed (VRef 1) Sample.resumed_store =
      Return {| Stage.myInternalState := VRef l |} h' ∧
    Sample.resumed_store !! l = None ∧
    Sample.resumed_store ⊆ h' ∧
    dom h' = {[ l ]} ∪ dom Sample.resumed_store.
Proof.
  apply (setState_copies Sample.resumed (VRef 1) Sample.resumed_store).
  reflexivity.
Defined.

(** X2. [setState] is idempotent on the working state: restoring the same
    state twice in a row leaves the same keys and values as restoring it
    once. *)
Theorem setState_idempotent (this : Stage.t) (state : value) (h : heap) :
  Host.working
    (Host.run [Host.SetState state; Host.SetState state] (this, h)) =
  Host.working (Host.run [Host.SetState state] (this, h)).
Proof.
  cbn [Host.run].
  destruct (Host.step (Host.SetState state) (this, h)) as [this1 h1] eqn:E1.
  destruct (setState_step_working this1 state h1) as [-> _].
  destruct (neq_null state) eqn:Hs.
  - simpl in E1. rewrite setState_non_null in E1 by done.
    injection E1 as <- <-. rewrite working_insert.
    set (w := own_props h (Stage.myInternalState this)).
    destruct state as [| | b | n | s | l]; try discriminate; simpl;
      rewrite ?merge_empty, ?merge_twice; try done.
    destruct (decide (l = fresh (dom h))) as [-> | Hne].
    + rewrite obj_at_insert_eq. unfold obj_at.
      rewrite fresh_unallocated. simpl. rewrite merge_empty.
      unfold merge. by rewrite (idemp_L (∪)).
    + rewrite obj_at_insert_ne by done. apply merge_twice.
  - simpl in E1. rewrite setState_nullish in E1 by done.
    injection E1 as <- <-.
    by rewrite (own_props_nullish h state Hs), merge_empty.
Qed.

(** X3. Two [setState] calls whose states share no key commute: either
    order leaves the same working state. *)
Theorem setState_disjoint_commute (this : Stage.t) (s1 s2 : value) (h : heap) :
  well_formed h s1 = true →
  well_formed h s2 = true →
  dom (own_props h s1) ## dom (own_props h s2) →
  Host.working (Host.run [Host.SetState s1; Host.SetState s2] (this, h)) =
  Host.working (Host.run [Host.SetState s2; Host.SetState s1] (this, h)).
Proof.
  intros W1 W2 Hdisj. cbn [Host.run].
  assert (∀ a b, well_formed h b = true →
    Host.working (Host.step (Host.SetState b)
                    (Host.step (Host.SetState a) (this, h))) =
    merge (merge (Host.working (this, h)) (own_props h a)) (own_props h b))
    as Hab.
  { intros a b Wb.
    destruct (setState_step_working this a h) as [Hw Hh].
    destruct (Host.step (Host.SetState a) (this, h)) as [this1 h1].
    destruct (setState_step_working this1 b h1) as [-> _].
    rewrite Hw. f_equal. simpl in Hh. rewrite Hh.
    by apply setState_keeps_arguments. }
  rewrite !Hab by done. unfold merge.
  rewrite !(assoc_L (∪)). f_equal. by apply map_union_comm, map_disjoint_dom.
Qed.

Lemma setState_disjoint_commute_witness :
  Host.working
    (Host.run [Host.SetState (VRef 1); Host.SetState (VRef 2)]
       (Sample.resumed, Sample.resumed_store)) =
  Host.working
    (Host.run [Host.SetState (VRef 2); Host.SetState (VRef 1)]
       (Sample.resumed, Sample.resumed_store)).
Proof.
  apply (setState_disjoint_commute Sample.resumed (VRef 1) (VRef 2)
           Sample.resumed_store).
  - vm_compute. reflexivity.
  - vm_compute. reflexivity.
  - apply (bool_decide_unpack _). vm_compute. exact I.
Defined.

(** X4. What a hook returns as [messageState] can be restored with
    [setState] without disturbing the working state: the restore sets
    [someKey] to the value it already had.  (A working state without
    [someKey] gains the key, holding [undefined].) *)
Theorem echo_restores (this : Stage.t) (m : value) (h : heap) :
  neq_null m = true →
  is_object h (Stage.myInternalState this) = true →
  ∃ r h1 this2 h2,
    Stage.beforePrompt this m h = Return r h1 ∧
    Stage.setState this (StageResponse.messageState r) h1 = Return this2 h2 ∧
    let w := Host.working (this, h) in
    Host.working (this2, h2) =
      <["someKey" := default VUndefined (w !! "someKey")]> w ∧
    (is_Some (w !! "someKey") → Host.working (this2, h2) = w).
Proof.
  intros Hm Hobj.
  rewrite beforePrompt_returns by eauto using is_object_neq_null.
  eexists _, _, _, _. split; [reflexivity |].
  cbn [StageResponse.messageState].
  split; [by apply setState_non_null |].
  rewrite working_insert. simpl.
  rewrite obj_at_insert_eq.
  rewrite own_props_alloc by (by apply is_object_well_formed).
  set (w := Host.working (this, h)). change (own_props h _) with w.
  assert (merge w {["someKey" := default VUndefined (w !! "someKey")]} =
          <["someKey" := default VUndefined (w !! "someKey")]> w) as ->.
  { unfold merge. by rewrite insert_union_singleton_l. }
  split; [done |]. intros [v Hv]. rewrite Hv. simpl. by apply insert_id.
Qed.

Lemma echo_restores_witness :
  ∃ r h1 this2 h2,
    Stage.beforePrompt Sample.resumed (VRef 4) Sample.resumed_store =
      Return r h1 ∧
    Stage.setState Sample.resumed (StageResponse.messageState r) h1 =
      Return this2 h2 ∧
    let w := Host.working (Sample.resumed, Sample.resumed_store) in
    Host.working (this2, h2) =
      <["someKey" := default VUndefined (w !! "someKey")]> w ∧
    (is_Some (w !! "someKey") → Host.working (this2, h2) = w).
Proof.
  apply (echo_restores Sample.resumed (VRef 4) Sample.resumed_store);
    vm_compute; reflexivity.
Defined.

Lemma hooks_throw_without_message_witness :
  Stage.beforePrompt Sample.resumed VNull Sample.resumed_store =
    Throw TypeError Sample.resumed_store ∧
  Stage.afterResponse Sample.resumed VNull Sample.resumed_store =
    Throw TypeError Sample.resumed_store.
Proof.
  apply (hooks_throw_without_message Sample.resumed VNull Sample.resumed_store).
  reflexivity.
Defined.

(** After construction no call removes or rewrites an object of the
    store. *)
Lemma step_extends_store (c : Host.call) (this : Stage.t) (h : heap) :
  h ⊆ (Host.step c (this, h)).2.
Proof.
  destruct c as [| state | m | m | o]; simpl.
  - done.
  - destruct (neq_null state) eqn:Hs.
    + rewrite setState_non_null by done. simpl.
      apply insert_subseteq, fresh_unallocated.
    + by rewrite setState_nullish.
  - apply hooks_extend_store.
  - apply hooks_extend_store.
  - apply insert_subseteq, fresh_unallocated.
Qed.

(** X6. Once constructed, the instance never writes to an object that
    exists: whatever the host calls, every object of the store (the prior
    state the constructor wrote its counters into among them) keeps its
    keys and values; calls only add objects. *)
Theorem run_extends_store (cs : list Host.call) (this : Stage.t) (h : heap) :
  h ⊆ (Host.run cs (this, h)).2.
Proof.
  revert this h. induction cs as [| c cs IH]; intros this h; [done |].
  cbn [Host.run].
  pose proof (step_extends_store c this h) as Hs.
  destruct (Host.step c (this, h)) as [this' h'].
  etrans; [exact Hs | apply IH].
Qed.

Lemma run_is_object (cs : list Host.call) (this : Stage.t) (h : heap) :
  is_object h (Stage.myInternalState this) = true →
  is_object (Host.run cs (this, h)).2
            (Stage.myInternalState (Host.run cs (this, h)).1) = true.
Proof.
  revert this h. induction cs as [| c cs IH]; intros this h Hobj; [done |].
  cbn [Host.run]. destruct (step_working c this h Hobj) as [Hobj' _].
  destruct (Host.step c (this, h)) as [this' h']. by apply IH.
Qed.

(** X7. At every point of the lifetime of a constructed instance the
    working state is an allocated object, so both hooks return on every
    message that is not [null] or [undefined]. *)
Theorem hooks_return_throughout
    (d : InitialData.t) (h0 h1 : heap) (this : Stage.t)
    (cs : list Host.call) (m : value) :
  Stage.constructor d h0 = Return this h1 →
  neq_null m = true →
  let cfg := Host.run cs (this, h1) in
  is_object cfg.2 (Stage.myInternalState cfg.1) = true ∧
  returns (Stage.beforePrompt cfg.1 m cfg.2) = true ∧
  returns (Stage.afterResponse cfg.1 m cfg.2) = true.
Proof.
  intros Hc Hm cfg.
  assert (is_object cfg.2 (Stage.myInternalState cfg.1) = true) as Hobj.
  { apply run_is_object. by eapply constructor_is_object. }
  split; [done |].
  rewrite beforePrompt_returns, afterResponse_returns
    by eauto using is_object_neq_null.
  done.
Qed.

Lemma hooks_return_throughout_witness :
  let cfg := Host.run Sample.session (Sample.resumed, Sample.resumed_store) in
  is_object cfg.2 (Stage.myInternalState cfg.1) = true ∧
  returns (Stage.beforePrompt cfg.1 (VRef 4) cfg.2) = true ∧
  returns (Stage.afterResponse cfg.1 (VRef 4) cfg.2) = true.
Proof.
  apply (hooks_return_throughout Sample.resumed_chat Sample.store
           Sample.resumed_store Sample.resumed Sample.session (VRef 4));
    vm_compute; reflexivity.
Defined.

Lemma dom_foldl_merge (l : list obj) (a : obj) :
  dom a ⊆ dom (foldl merge a l).
Proof.
  revert a. induction l as [| x l IH]; intros a; [done |].
  simpl. etrans; [| apply IH]. unfold merge. rewrite dom_union_L. set_solver.
Qed.

(** X8. Keys are never removed: after any calls the working state has at
    least the keys it had right after construction; in particular
    [numUsers] and [numChars] stay present for the whole lifetime. *)
Theorem keys_only_grow
    (d : InitialData.t) (h0 h1 : heap) (this : Stage.t) (cs : list Host.call) :
  Stage.constructor d h0 = Return this h1 →
  dom (Host.working (this, h1)) ⊆ dom (Host.working (Host.run cs (this, h1))) ∧
  "numUsers" ∈ dom (Host.working (Host.run cs (this, h1))) ∧
  "numChars" ∈ dom (Host.working (Host.run cs (this, h1))).
Proof.
  intros Hc.
  assert (dom (Host.working (this, h1)) ⊆
          dom (Host.working (Host.run cs (this, h1)))) as Hsub.
  { rewrite run_working by (by eapply constructor_is_object).
    apply dom_foldl_merge. }
  split; [done |].
  destruct (constructor_working d h0 h1 this Hc) as (nu & nc & Hw).
  rewrite Hw, !dom_insert_L in Hsub. set_solver.
Qed.

Lemma keys_only_grow_witness :
  dom (Host.working (Sample.resumed, Sample.resumed_store)) ⊆
    dom (Host.working
           (Host.run Sample.session (Sample.resumed, Sample.resumed_store))) ∧
  "numUsers" ∈ dom (Host.working
           (Host.run Sample.session (Sample.resumed, Sample.resumed_store))) ∧
  "numChars" ∈ dom (Host.working
           (Host.run Sample.session (Sample.resumed, Sample.resumed_store))).
Proof.
  apply (keys_only_grow Sample.resumed_chat Sample.store
           Sample.resumed_store Sample.resumed Sample.session).
  vm_compute. reflexivity.
Defined.

(** X9. A failed construction is not undone: when the prior state is an
    object and [users] is present but [characters] is missing, the
    constructor throws after it has written [numUsers] into the host's
    object. *)
Theorem constructor_fails_midway
    (d : InitialData.t) (h : heap) (l : loc) (o : obj) :
  InitialData.messageState d = VRef l →
  h !! l = Some o →
  neq_null (InitialData.users d) = true →
  neq_null (InitialData.characters d) = false →
  Stage.constructor d h =
    Throw TypeError
      (<[l := <["numUsers" := VNum (key_count h (InitialData.users d))]> o]> h).
Proof.
  intros Hp Ho Hu Hc.
  unfold Stage.constructor, Stage.StageBase_constructor. unfold_M.
  rewrite Hp. simpl.
  destruct (Object_keys_length h (InitialData.users d) Hu) as [-> ->].
  simpl. unfold Object_keys. rewrite Hc.
  by rewrite (obj_at_Some h l o Ho).
Qed.

Lemma constructor_fails_midway_witness :
  Stage.constructor Sample.no_characters Sample.store =
    Throw TypeError
      (<[3%positive :=
           <["numUsers" := VNum (key_count Sample.store (VRef 1))]>
             Sample.saved_state]> Sample.store).
Proof.
  apply (constructor_fails_midway Sample.no_characters Sample.store
           3%positive Sample.saved_state); vm_compute; reflexivity.
Defined.

(* ===================================================================== *)
(** ** [render]                                                          *)
(* ===================================================================== *)

Lemma mapM_Return {A B : Type} (f : A → M B) (g : A → B)
    (l : list A) (h : heap) :
  (∀ x, In x l → f x h = Return (g x) h) →
  mapM f l h = Return (List.map g l) h.
Proof.
  induction l as [| x l IH]; intros Hf; [done |].
  cbn [mapM List.map]. unfold_M.
  rewrite (Hf x) by (by left).
  rewrite IH; [done |]. intros y Hy. apply Hf. by right.
Qed.

Lemma renderItem_view (st : value) (it : Stage.item) (h : heap) :
  neq_null st = true →
  Stage.renderItem st it h = Return (item_view (own_props h st) it) h.
Proof.
  intros Hs. destruct it as [label key | text]; [| done].
  unfold Stage.renderItem, get_prop. unfold_M. by rewrite Hs.
Qed.

(** On an instance whose working state is there, [render] reads and
    returns; it writes nothing. *)
Lemma render_view (this : Stage.t) (a : option string) (h : heap) :
  neq_null (Stage.myInternalState this) = true →
  Stage.render this a h =
    Return (Div Stage.panel_style
              (List.map (category_view (Host.working (this, h)) a)
                        Stage.categories)) h.
Proof.
  intros Hs. unfold Stage.render. unfold_M.
  rewrite (mapM_Return _ (category_view (Host.working (this, h)) a)); [done |].
  intros c _.
  rewrite (mapM_Return _ (item_view (Host.working (this, h)))); [done |].
  intros it _. by apply renderItem_view.
Qed.

Lemma leaves_item_view (w : obj) (it : Stage.item) :
  leaves (item_view w it) = shown_item w it.
Proof. by destruct it. Qed.

Lemma leaves_category_view (w : obj) (a : option string)
    (c : string * list Stage.item) :
  leaves (category_view w a c) = shown_category w a c.
Proof.
  unfold category_view, shown_category, Stage.renderCategory.
  destruct (bool_decide (a = Some c.1)); [| done].
  cbn [leaves List.map concat app]. rewrite !app_nil_r. do 2 f_equal.
  rewrite List.map_map. f_equal. apply List.map_ext. apply leaves_item_view.
Qed.

Lemma buttons_item_views (w : obj) (items : list Stage.item) :
  concat (List.map buttons (List.map (item_view w) items)) = [].
Proof. induction items as [| [label key | text] items IH]; done. Qed.

Lemma buttons_category_view (w : obj) (a : option string)
    (c : string * list Stage.item) :
  buttons (category_view w a c) =
    [if bool_decide (a = Some c.1) then None else Some c.1].
Proof.
  unfold category_view, Stage.renderCategory.
  destruct (bool_decide (a = Some c.1)); [| done].
  cbn [buttons List.map concat app]. by rewrite buttons_item_views.
Qed.

Lemma leaves_panel (w : obj) (a : option string)
    (cats : list (string * list Stage.item)) :
  concat (List.map leaves (List.map (category_view w a) cats)) =
    concat (List.map (shown_category w a) cats).
Proof.
  rewrite List.map_map. f_equal. apply List.map_ext.
  apply leaves_category_view.
Qed.

Lemma buttons_panel (w : obj) (a : option string)
    (cats : list (string * list Stage.item)) :
  concat (List.map buttons (List.map (category_view w a) cats)) =
    List.map (λ n, if bool_decide (a = Some n) then None else Some n)
             (List.map fst cats).
Proof.
  induction cats as [| c cats IH]; [done |].
  cbn [List.map concat]. by rewrite buttons_category_view, IH.
Qed.

Lemma render_leaves (this : Stage.t) (a : option string) (h : heap) :
  neq_null (Stage.myInternalState this) = true →
  ∃ t,
    Stage.render this a h = Return t h ∧
    leaves t =
      concat (List.map (shown_category (Host.working (this, h)) a)
                       Stage.categories).
Proof.
  intros Hs. rewrite render_view by done.
  eexists. split; [reflexivity |]. apply leaves_panel.
Qed.

(** X10. [render] returns without writing to the store, and what it shows
    is, category by category in panel order: for a closed category its
    name; for the active one its name, [Hide] and, line by line, the label
    and the working state's value for the line's key, [undefined] when the
    key is missing (nothing is suppressed). *)
Theorem render_shows (this : Stage.t) (a : option string) (h : heap) :
  is_object h (Stage.myInternalState this) = true →
  ∃ t,
    Stage.render this a h = Return t h ∧
    leaves t =
      concat (List.map (shown_category (Host.working (this, h)) a)
                       Stage.categories).
Proof.
  intros Hobj%is_object_neq_null. by apply render_leaves.
Qed.

Lemma render_shows_witness :
  ∃ t,
    Stage.render Sample.resumed (Some "Misc") Sample.resumed_store =
      Return t Sample.resumed_store ∧
    leaves t =
      concat (List.map
                (shown_category
                   (Host.working (Sample.resumed, Sample.resumed_store))
                   (Some "Misc"))
                Stage.categories).
Proof.
  apply (render_shows Sample.resumed (Some "Misc") Sample.resumed_store).
  vm_compute. reflexivity.
Defined.

(** A closed category is rendered without its details. *)
Lemma category_view_closed (w w' : obj) (a : option string)
    (c : string * list Stage.item) :
  a ≠ Some c.1 → category_view w a c = category_view w' a c.
Proof.
  intros Ha. unfold category_view, Stage.renderCategory.
  by rewrite bool_decide_eq_false_2.
Qed.

(** X11. With no category active (the panel's first state) [render] gives
    the same tree whatever the working state holds: one button per
    category, each opening its own category, and no value of the state. *)
Theorem render_closed (this : Stage.t) (h : heap) :
  is_object h (Stage.myInternalState this) = true →
  ∃ t,
    Stage.render this None h = Return t h ∧
    buttons t = List.map Some category_names ∧
    leaves t = concat (List.map (λ n, [VStr n; VNull]) category_names) ∧
    ∀ this' h',
      is_object h' (Stage.myInternalState this') = true →
      Stage.render this' None h' = Return t h'.
Proof.
  intros Hobj%is_object_neq_null. rewrite render_view by done.
  eexists. split; [reflexivity |]. split; [| split].
  - cbn [buttons]. by rewrite buttons_panel.
  - cbn [leaves]. rewrite leaves_panel. unfold category_names.
    by rewrite List.map_map.
  - intros this' h' Hobj'%is_object_neq_null. rewrite render_view by done.
    rewrite (List.map_ext _ (category_view (Host.working (this, h)) None));
      [done |].
    intros c. by apply category_view_closed.
Qed.

Lemma render_closed_witness :
  ∃ t,
    Stage.render Sample.resumed None Sample.resumed_store =
      Return t Sample.resumed_store ∧
    buttons t = List.map Some category_names ∧
    leaves t = concat (List.map (λ n, [VStr n; VNull]) category_names) ∧
    ∀ this' h',
      is_object h' (Stage.myInternalState this') = true →
      Stage.render this' None h' = Return t h'.
Proof.
  apply (render_closed Sample.resumed Sample.resumed_store).
  vm_compute. reflexivity.
Defined.

Lemma category_names_NoDup : NoDup category_names.
Proof. apply (bool_decide_unpack _). vm_compute. exact I. Qed.

Lemma hide_buttons_none (a : option string) (l : list string) :
  (∀ n, In n l → a ≠ Some n) →
  filter (λ b : option string, b = None)
    (List.map (λ n, if bool_decide (a = Some n) then None else Some n) l) = [].
Proof.
  induction l as [| n l IH]; intros Hl; [done |].
  cbn [List.map]. rewrite bool_decide_eq_false_2 by (apply Hl; by left).
  rewrite filter_cons_False by done. apply IH. intros m Hm. apply Hl. by right.
Qed.

Lemma hide_buttons_le_1 (a : option string) (l : list string) :
  NoDup l →
  (length (filter (λ b : option string, b = None)
     (List.map (λ n, if bool_decide (a = Some n) then None else Some n) l))
   ≤ 1)%nat.
Proof.
  induction 1 as [| n l Hn Hl IH]; [simpl; lia |].
  cbn [List.map]. destruct (decide (a = Some n)) as [-> | Hne].
  - rewrite bool_decide_eq_true_2 by done.
    rewrite filter_cons_True by done.
    rewrite hide_buttons_none; [done |].
    intros m Hm [= <-]. by apply Hn, list_elem_of_In.
  - rewrite bool_decide_eq_false_2 by done.
    by rewrite filter_cons_False.
Qed.

(** X12. At most one category is open at a time: the tree always has nine
    buttons, one per category, and at most one of them is a [Hide] button
    (none when no category is active); every other button opens its own
    category. *)
Theorem one_category_open (this : Stage.t) (a : option string) (h : heap) :
  is_object h (Stage.myInternalState this) = true →
  ∃ t,
    Stage.render this a h = Return t h ∧
    buttons t =
      List.map (λ n, if bool_decide (a = Some n) then None else Some n)
               category_names ∧
    length (buttons t) = 9 ∧
    (length (filter (λ b : option string, b = None) (buttons t)) ≤ 1)%nat ∧
    (a = None → filter (λ b : option string, b = None) (buttons t) = []).
Proof.
  intros Hobj%is_object_neq_null. rewrite render_view by done.
  eexists. split; [reflexivity |].
  cbn [buttons]. rewrite buttons_panel. fold category_names.
  split; [done |]. split; [by rewrite List.length_map |].
  split; [apply hide_buttons_le_1, category_names_NoDup |].
  intros ->. by apply hide_buttons_none.
Qed.

Lemma one_category_open_witness :
  ∃ t,
    Stage.render Sample.resumed (Some "Hygiene") Sample.resumed_store =
      Return t Sample.resumed_store ∧
    buttons t =
      List.map (λ n, if bool_decide (Some "Hygiene" = Some n)
                     then None else Some n)
               category_names ∧
    length (buttons t) = 9 ∧
    (length (filter (λ b : option string, b = None) (buttons t)) ≤ 1)%nat ∧
    (Some "Hygiene" = None →
     filter (λ b : option string, b = None) (buttons t) = []).
Proof.
  apply (one_category_open Sample.resumed (Some "Hygiene") Sample.resumed_store).
  vm_compute. reflexivity.
Defined.

Lemma lookup_List_map {A B : Type} (f : A → B) (l : list A) (i : nat) :
  List.map f l !! i = f <$> l !! i.
Proof.
  revert i. induction l as [| x l IH]; intros [| i]; try done. apply IH.
Qed.

(** X13. Clicking a category's button toggles that category: if it was
    closed it becomes the active one (and whichever was open is thereby
    closed); if it was the active one, no category is active any more. *)
Theorem click_toggles
    (this : Stage.t) (a : option string) (h : heap) (i : nat) (name : string) :
  is_object h (Stage.myInternalState this) = true →
  category_names !! i = Some name →
  ∃ t,
    Stage.render this a h = Return t h ∧
    click i t a = (if bool_decide (a = Some name) then None else Some name).
Proof.
  intros Hobj%is_object_neq_null Hi. rewrite render_view by done.
  eexists. split; [reflexivity |].
  unfold click. cbn [buttons]. rewrite buttons_panel. fold category_names.
  by rewrite lookup_List_map, Hi.
Qed.

Lemma click_toggles_witness :
  ∃ t,
    Stage.render Sample.resumed (Some "Misc") Sample.resumed_store =
      Return t Sample.resumed_store ∧
    click 3 t (Some "Misc") =
      (if bool_decide (Some "Misc" = Some "Hygiene") then None
       else Some "Hygiene").
Proof.
  apply (click_toggles Sample.resumed (Some "Misc") Sample.resumed_store
           3 "Hygiene"); vm_compute; reflexivity.
Defined.

Lemma key_in_category_keys (c : string * list Stage.item) (label key : string) :
  In c Stage.categories →
  In (Stage.Detail label key) c.2 →
  In key (category_keys c.1) ∧ In key displayed_keys.
Proof.
  intros Hc Hit.
  assert (In key (concat (List.map item_keys c.2))) as Hk.
  { apply in_concat. exists [key]. split; [| by left].
    apply in_map_iff. by exists (Stage.Detail label key). }
  split; apply in_concat; eexists; (split; [| exact Hk]).
  - apply in_map_iff. exists c. by rewrite bool_decide_eq_true_2.
  - apply in_map_iff. by exists c.
Qed.

(** Two working states that agree on the keys of a category's lines give
    the category the same element. *)
Lemma category_view_agree (w w' : obj) (a : option string)
    (c : string * list Stage.item) (keys : list string) :
  (∀ label key, In (Stage.Detail label key) c.2 → In key keys) →
  Forall (λ key, w !! key = w' !! key) keys →
  category_view w a c = category_view w' a c.
Proof.
  intros Hin Hagree. unfold category_view. f_equal. f_equal.
  apply List.map_ext_in. intros [label key | text] Hit; [| done].
  simpl. rewrite Forall_forall in Hagree.
  by rewrite (Hagree key) by (by apply list_elem_of_In, (Hin label)).
Qed.

(** X14. The tree depends on the working state only through the keys of
    the active category: two instances whose working states agree on those
    keys render the same tree, however they differ elsewhere. *)
Theorem render_reads_active_keys
    (this1 this2 : Stage.t) (h1 h2 : heap) (a : option string) :
  is_object h1 (Stage.myInternalState this1) = true →
  is_object h2 (Stage.myInternalState this2) = true →
  Forall (λ key, Host.working (this1, h1) !! key =
                 Host.working (this2, h2) !! key)
         (match a with Some name => category_keys name | None => [] end) →
  ∃ t,
    Stage.render this1 a h1 = Return t h1 ∧
    Stage.render this2 a h2 = Return t h2.
Proof.
  intros Hobj1%is_object_neq_null Hobj2%is_object_neq_null Hagree.
  rewrite !render_view by done. eexists. split; [reflexivity |].
  do 2 f_equal. apply List.map_ext_in. intros c Hc.
  destruct (decide (a = Some c.1)) as [-> | Hne].
  - symmetry. eapply category_view_agree; [| exact Hagree].
    intros label key Hit. by eapply key_in_category_keys.
  - by apply category_view_closed.
Qed.

Lemma render_reads_active_keys_witness :
  ∃ t,
    Stage.render Sample.resumed (Some "Misc") Sample.resumed_store =
      Return t Sample.resumed_store ∧
    Stage.render Sample.resumed (Some "Misc") Sample.store =
      Return t Sample.store.
Proof.
  apply (render_reads_active_keys Sample.resumed Sample.resumed
           Sample.resumed_store Sample.store (Some "Misc")).
  - vm_compute. reflexivity.
  - vm_compute. reflexivity.
  - apply (bool_decide_unpack _). vm_compute. exact I.
Defined.

Lemma counters_not_displayed :
  ¬ In "someKey" displayed_keys ∧
  ¬ In "numUsers" displayed_keys ∧
  ¬ In "numChars" displayed_keys.
Proof.
  rewrite <- !list_elem_of_In.
  split; [| split]; apply (bool_decide_unpack _); vm_compute; exact I.
Qed.

Lemma shown_category_agree (w w' : obj) (a : option string)
    (c : string * list Stage.item) :
  In c Stage.categories →
  (∀ key, In key displayed_keys → w !! key = w' !! key) →
  shown_category w a c = shown_category w' a c.
Proof.
  intros Hc Hagree. unfold shown_category.
  destruct (bool_decide (a = Some c.1)); [| done].
  do 3 f_equal. apply List.map_ext_in.
  intros [label key | text] Hit; [| done]. simpl.
  rewrite (Hagree key); [done |]. by eapply key_in_category_keys.
Qed.

(** X15. What the constructor adds is never displayed: right after
    construction the panel shows the restored prior state's values and
    nothing of [numUsers], [numChars] or the seed's [someKey]; on a chat
    without prior state every line shows [undefined]. *)
Theorem render_after_construction
    (d : InitialData.t) (h0 h1 : heap) (this : Stage.t) (a : option string) :
  Stage.constructor d h0 = Return this h1 →
  ∃ t,
    Stage.render this a h1 = Return t h1 ∧
    leaves t =
      concat (List.map
                (shown_category
                   (if neq_null (InitialData.messageState d)
                    then own_props h0 (InitialData.messageState d)
                    else ∅) a)
                Stage.categories).
Proof.
  intros Hc.
  pose proof (constructor_is_object d h0 h1 this Hc) as Hobj.
  destruct (render_leaves this a h1) as (t & Hr & Hl);
    [by eapply is_object_neq_null |].
  exists t. split; [done |]. rewrite Hl. f_equal.
  apply List.map_ext_in. intros c Hin.
  apply shown_category_agree; [done |]. intros key Hkey.
  destruct (constructor_working d h0 h1 this Hc) as (nu & nc & ->).
  destruct counters_not_displayed as (K1 & K2 & K3).
  rewrite !lookup_insert_ne by (intros <-; contradiction).
  destruct (neq_null (InitialData.messageState d)); [done |].
  unfold Stage.seed. rewrite lookup_singleton_ne by (intros <-; contradiction).
  by rewrite lookup_empty.
Qed.

Lemma render_after_construction_witness :
  ∃ t,
    Stage.render Sample.resumed (Some "Misc") Sample.resumed_store =
      Return t Sample.resumed_store ∧
    leaves t =
      concat (List.map
                (shown_category
                   (if neq_null (InitialData.messageState Sample.resumed_chat)
                    then own_props Sample.store
                           (InitialData.messageState Sample.resumed_chat)
                    else ∅) (Some "Misc"))
                Stage.categories).
Proof.
  apply (render_after_construction Sample.resumed_chat Sample.store
           Sample.resumed_store Sample.resumed (Some "Misc")).
  vm_compute. reflexivity.
Defined.

(** X16. A render after [setState] reflects the merge: every line of the
    active category shows the restored state's value for its key when the
    restored state has the key, and the former value otherwise. *)
Theorem render_after_setState
    (this : Stage.t) (state : value) (a : option string) (h : heap) :
  neq_null state = true →
  ∃ this' h' t,
    Stage.setState this state h = Return this' h' ∧
    Stage.render this' a h' = Return t h' ∧
    leaves t =
      concat (List.map
                (shown_category
                   (merge (Host.working (this, h)) (own_props h state)) a)
                Stage.categories) ∧
    ∀ label key,
      shown_item (merge (Host.working (this, h)) (own_props h state))
                 (Stage.Detail label key) =
        [VStr "*"; VStr label; VStr ": ";
         match own_props h state !! key with
         | Some v => v
         | None => default VUndefined (Host.working (this, h) !! key)
         end].
Proof.
  intros Hs. rewrite setState_non_null by done. eexists _, _.
  destruct (render_leaves {| Stage.myInternalState := VRef (fresh (dom h)) |} a
              (<[fresh (dom h) :=
                   merge (own_props h (Stage.myInternalState this))
                         (own_props h state)]> h)) as (t & Hr & Hl); [done |].
  exists t. split; [reflexivity |]. split; [exact Hr |].
  rewrite working_insert in Hl. split; [exact Hl |].
  intros label key. simpl. rewrite lookup_merge.
  by destruct (own_props h state !! key).
Qed.

Lemma render_after_setState_witness :
  ∃ this' h' t,
    Stage.setState Sample.resumed (VRef 1) Sample.resumed_store =
      Return this' h' ∧
    Stage.render this' (Some "Misc") h' = Return t h' ∧
    leaves t =
      concat (List.map
                (shown_category
                   (merge (Host.working (Sample.resumed, Sample.resumed_store))
                          (own_props Sample.resumed_store (VRef 1)))
                   (Some "Misc"))
                Stage.categories) ∧
    ∀ label key,
      shown_item (merge (Host.working (Sample.resumed, Sample.resumed_store))
                        (own_props Sample.resumed_store (VRef 1)))
                 (Stage.Detail label key) =
        [VStr "*"; VStr label; VStr ": ";
         match own_props Sample.resumed_store (VRef 1) !! key with
         | Some v => v
         | None =>
             default VUndefined
               (Host.working (Sample.resumed, Sample.resumed_store) !! key)
         end].
Proof.
  apply (render_after_setState Sample.resumed (VRef 1) (Some "Misc")
           Sample.resumed_store).
  reflexivity.
Defined.

(** X17. Whatever is clicked, and in whatever order, starting from the
    panel's first state, the active category is either none or one of the
    nine categories of the panel. *)
Theorem clicks_stay_in_panel (this : Stage.t) (h : heap) (ixs : list nat) :
  is_object h (Stage.myInternalState this) = true →
  match clicks this h ixs None with
  | None => True
  | Some name => In name category_names
  end.
Proof.
  intros Hobj%is_object_neq_null.
  assert (∀ a : option string,
    match a with None => True | Some n => In n category_names end →
    match clicks this h ixs a with
    | None => True
    | Some n => In n category_names
    end) as Hgen; [| by apply Hgen].
  induction ixs as [| i ixs IH]; intros a Ha; [done |].
  cbn [clicks]. rewrite render_view by done. apply IH.
  unfold click. cbn [buttons]. rewrite buttons_panel. fold category_names.
  rewrite lookup_List_map.
  destruct (category_names !! i) as [name |] eqn:Hi; [| done].
  apply list_elem_of_lookup_2, list_elem_of_In in Hi.
  cbn [fmap option_fmap option_map].
  by destruct (bool_decide (a = Some name)).
Qed.

Lemma clicks_stay_in_panel_witness :
  match clicks Sample.resumed Sample.resumed_store [3; 0; 0; 12; 4] None with
  | None => True
  | Some name => In name category_names
  end.
Proof.
  apply (clicks_stay_in_panel Sample.resumed Sample.resumed_store
           [3; 0; 0; 12; 4]).
  vm_compute. reflexivity.
Defined.

(** The clicks of the witness, run: Hygiene opens, Body Details replaces
    it and is hidden again, a click past the ninth button does nothing,
    and Misc is left open. *)
Example clicks_sample :
  clicks Sample.resumed Sample.resumed_store [3; 0; 0; 12; 4] None = Some "Misc".
Proof. vm_compute. reflexivity. Qed.

(** X18. The two hooks are one function of the working state: on
    messages that are there, neither the message nor the choice of hook
    changes the response or the store. *)
Theorem hooks_ignore_message (this : Stage.t) (m m' : value) (h : heap) :
  neq_null m = true →
  neq_null m' = true →
  Stage.beforePrompt this m h = Stage.beforePrompt this m' h ∧
  Stage.afterResponse this m h = Stage.beforePrompt this m' h.
Proof.
  intros Hm Hm'.
  unfold Stage.beforePrompt, Stage.afterResponse, get_prop. unfold_M.
  by rewrite Hm, Hm'.
Qed.

Lemma hooks_ignore_message_witness :
  Stage.beforePrompt Sample.resumed (VRef 4) Sample.resumed_store =
    Stage.beforePrompt Sample.resumed (VStr "hi") Sample.resumed_store ∧
  Stage.afterResponse Sample.resumed (VRef 4) Sample.resumed_store =
    Stage.beforePrompt Sample.resumed (VStr "hi") Sample.resumed_store.
Proof.
  apply (hooks_ignore_message Sample.resumed (VRef 4) (VStr "hi")
           Sample.resumed_store); reflexivity.
Defined.
